(** * d-logger: a shallow embedding of [lib/logger.ts]

    The development follows the source file top to bottom: the values the
    logger is handed, the [format] interpolator, the option validation and
    the constructor, the two formatters, caller detection, [log] and the
    level accessor.  Stateful code is written in a small state-and-exception
    monad over the logger instance and the process-wide objects it touches
    ([Error.prepareStackTrace], the two console channels). *)

From Stdlib Require Import Ascii String QArith Lia.
From stdpp Require Import strings gmap list pretty.

Local Open Scope string_scope.
Local Open Scope list_scope.
Set Warnings "-register-all".

(** ** JavaScript values

    The fragment of JavaScript values the logger is exercised with: the
    primitives, arrays, plain objects (own enumerable string-keyed
    properties, in enumeration order) and a plain object that carries one
    extra property referring back to itself (the [obj.self = obj] shape of
    the test-suite).  Numbers are the finite ones, kept as rationals.
    Symbols, functions, big integers and objects with user-defined
    [toString]/[toJSON] are outside the fragment. *)

Inductive value : Type :=
| VUndefined
| VNull
| VBool (b : bool)
| VNum (n : Q)
| VStr (s : string)
| VArr (elems : list value)
| VObj (props : list (string * value))
| VSelfRef (props : list (string * value)) (key : string).

(** A thrown value: an instance of [Error] (with its [message]) or anything
    else. *)
Inductive exn : Type :=
| JsError (message : string)
| JsThrown (v : value).

(** The outcome of an expression that may throw. *)
Inductive Result (A : Type) : Type :=
| Ok (a : A)
| Throw (e : exn).
Arguments Ok {A} a.
Arguments Throw {A} e.

(** [error instanceof Error ? error.message : "Unknown error"] *)
Definition errorMessage (e : exn) : string :=
  match e with
  | JsError m => m
  | JsThrown _ => "Unknown error"
  end.

(** [typeof v] *)
Definition typeof (v : value) : string :=
  match v with
  | VUndefined => "undefined"
  | VBool _ => "boolean"
  | VNum _ => "number"
  | VStr _ => "string"
  | VNull | VArr _ | VObj _ | VSelfRef _ _ => "object"
  end.

(** The number that stands for an integer, and the integer a whole number
    stands for. *)
Definition num (z : Z) : value := VNum (inject_Z z).

Definition integerOf (n : Q) : Z := (Qnum n / Z.pos (Qden n))%Z.

(** What the host runtime contributes and the source does not spell out:
    the text of a number, the numeric coercions behind [%d], [%i] and [%f],
    and the wording of the runtime's own [TypeError]s. *)
Class Runtime : Type := {
  (** [String(n)] for a number [n] *)
  numberText : Q -> string;
  (** [String(Number(a))] *)
  numericText : value -> string;
  (** [String(parseInt(String(Number(a)), 10))] *)
  integerText : value -> string;
  (** [String(parseFloat(String(Number(a))))] *)
  floatText : value -> string;
  (** message of the error [JSON.stringify] raises on a cyclic structure *)
  circularMessage : string;
  (** message of the error raised by calling or reading through a value
      that is not there, given the source text of the failing expression *)
  typeErrorMessage : string -> string
}.

(** ** Strings *)

Definition dquote : ascii := "034"%char.
Definition backslash : ascii := "092"%char.

(** A text between two double quotes, as it stands (nothing escaped). *)
Definition quoted (s : string) : string :=
  String dquote s +:+ String dquote EmptyString.

(** [s.replace(/c/g, by)] for a one-character pattern. *)
Fixpoint replaceChar (c : ascii) (by_ : string) (s : string) : string :=
  match s with
  | EmptyString => EmptyString
  | String x rest =>
      if Ascii.eqb x c then by_ +:+ replaceChar c by_ rest
      else String x (replaceChar c by_ rest)
  end.

(** [s.replace(c, by)] for a one-character string pattern: the first
    occurrence only. *)
Fixpoint replaceFirstChar (c : ascii) (by_ : string) (s : string) : string :=
  match s with
  | EmptyString => EmptyString
  | String x rest =>
      if Ascii.eqb x c then by_ +:+ rest
      else String x (replaceFirstChar c by_ rest)
  end.

(** [s.toUpperCase()] on ASCII text. *)
Definition upperChar (c : ascii) : ascii :=
  let n := nat_of_ascii c in
  if ((97 <=? n) && (n <=? 122))%nat then ascii_of_nat (n - 32) else c.

Fixpoint toUpperCase (s : string) : string :=
  match s with
  | EmptyString => EmptyString
  | String c rest => String (upperChar c) (toUpperCase rest)
  end.

Fixpoint spaces (n : nat) : string :=
  match n with
  | O => EmptyString
  | S k => String " " (spaces k)
  end.

(** [s.padEnd(n)] *)
Definition padEnd (n : nat) (s : string) : string :=
  s +:+ spaces (n - String.length s).

(** [s.split("/").pop()]: the text after the last slash. *)
Fixpoint lastSegment (acc : string) (s : string) : string :=
  match s with
  | EmptyString => acc
  | String c rest =>
      if Ascii.eqb c "/" then lastSegment EmptyString rest
      else lastSegment (acc +:+ String c EmptyString) rest
  end.

(** ** [String(v)], [Array.prototype.join], [Object.entries] *)

Section Conversions.
Context `{Runtime}.

Fixpoint toStr (v : value) : string :=
  match v with
  | VUndefined => "undefined"
  | VNull => "null"
  | VBool b => if b then "true" else "false"
  | VNum n => numberText n
  | VStr s => s
  | VArr elems =>
      String.concat ","
        (map (fun e => match e with
                       | VUndefined | VNull => EmptyString
                       | _ => toStr e
                       end) elems)
  | VObj _ | VSelfRef _ _ => "[object Object]"
  end.

(** The text [join] gives one element: empty for [null] and [undefined]. *)
Definition elementText (e : value) : string :=
  match e with
  | VUndefined | VNull => EmptyString
  | _ => toStr e
  end.

(** [elems.join(sep)] *)
Definition arrayJoin (sep : string) (elems : list value) : string :=
  String.concat sep (map elementText elems).

(** [Object.entries(v)] for a value whose [typeof] is ["object"] and that is
    not [null]. *)
Definition entries (v : value) : list (string * value) :=
  match v with
  | VObj props => props
  | VSelfRef props key => props ++ [(key, v)]
  | VArr elems => imap (fun i e => (pretty i, e)) elems
  | _ => []
  end.

(** ** [JSON.stringify] *)

Definition hexDigit (n : nat) : ascii :=
  nth n (list_ascii_of_string "0123456789abcdef") "0"%char.

Definition jsonEscape (c : ascii) : string :=
  let n := nat_of_ascii c in
  if Ascii.eqb c dquote then String backslash (String dquote EmptyString)
  else if Ascii.eqb c backslash then String backslash (String backslash EmptyString)
  else if (n =? 8)%nat then String backslash "b"
  else if (n =? 9)%nat then String backslash "t"
  else if (n =? 10)%nat then String backslash "n"
  else if (n =? 12)%nat then String backslash "f"
  else if (n =? 13)%nat then String backslash "r"
  else if (n <? 32)%nat then
    String backslash "u00" +:+ String (hexDigit (n / 16)) (String (hexDigit (n mod 16)) EmptyString)
  else String c EmptyString.

Fixpoint jsonEscapeAll (s : string) : string :=
  match s with
  | EmptyString => EmptyString
  | String c rest => jsonEscape c +:+ jsonEscapeAll rest
  end.

Definition jsonQuote (s : string) : string :=
  String dquote (jsonEscapeAll s) +:+ String dquote EmptyString.

(** Runs a list of serialisations and stops at the first that throws. *)
Fixpoint collect {A : Type} (rs : list (Result A)) : Result (list A) :=
  match rs with
  | [] => Ok []
  | Throw e :: _ => Throw e
  | Ok a :: rest =>
      match collect rest with
      | Ok l => Ok (a :: l)
      | Throw e => Throw e
      end
  end.

(** [JSON.stringify(v)]: [Ok None] is the result [undefined], [Throw] the
    error raised on a cyclic structure. *)
Fixpoint stringify (v : value) : Result (option string) :=
  match v with
  | VUndefined => Ok None
  | VNull => Ok (Some "null")
  | VBool b => Ok (Some (if b then "true" else "false"))
  | VNum n => Ok (Some (numberText n))
  | VStr s => Ok (Some (jsonQuote s))
  | VArr elems =>
      match collect (map stringify elems) with
      | Ok items => Ok (Some ("[" +:+ String.concat "," (map (default "null") items) +:+ "]"))
      | Throw e => Throw e
      end
  | VObj props =>
      match collect (map (fun kv => match stringify (snd kv) with
                                    | Ok o => Ok (fst kv, o)
                                    | Throw e => Throw e
                                    end) props) with
      | Ok members =>
          Ok (Some ("{" +:+
                    String.concat ","
                      (omap (fun m => match snd m with
                                      | Some text => Some (jsonQuote (fst m) +:+ ":" +:+ text)
                                      | None => None
                                      end) members) +:+ "}"))
      | Throw e => Throw e
      end
  | VSelfRef _ _ => Throw (JsError circularMessage)
  end.

End Conversions.

(** ** The interpolator: [format(f, ...args)] *)

Section Interpolator.
Context `{Runtime}.

(** The callback of the first branch ([typeof f !== "string"]): how each
    argument of a plain join is rendered.  A callback result [undefined]
    is joined as the empty text. *)
Definition plainJoinForm (arg : value) : string :=
  match arg with
  | VNull => "null"
  | VUndefined => "undefined"
  | _ =>
      if String.eqb (typeof arg) "object" then
        match stringify arg with
        | Ok (Some text) => text
        | Ok None => EmptyString
        | Throw _ => "[object Object]"
        end
      else toStr arg
  end.

(** [case "%s"].  On the modelled values nothing in the guarded blocks
    throws, so their [catch] branches are never taken. *)
Definition stringSpecifier (arg : value) : string :=
  match arg with
  | VNull => "null"
  | VUndefined => "undefined"
  | _ =>
      if String.eqb (typeof arg) "object" then
        match arg with
        | VArr elems => "[ " +:+ arrayJoin ", " elems +:+ " ]"
        | _ =>
            let rendered :=
              map (fun kv =>
                     fst kv +:+ ": " +:+
                     (if String.eqb (typeof (snd kv)) "string"
                      then "'" +:+ toStr (snd kv) +:+ "'"
                      else toStr (snd kv)))
                  (entries arg) in
            "{ " +:+ String.concat ", " rendered +:+ " }"
        end
      else toStr arg
  end.

(** [case "%d"], [case "%i"], [case "%f"] *)
Definition numberSpecifier (coerce : value -> string) (arg : value) : string :=
  match arg with
  | VNull => "0"
  | VUndefined => "NaN"
  | _ => coerce arg
  end.

(** [case "%j"]: a result [undefined] of [JSON.stringify] is turned into
    text by [replace]. *)
Definition jsonSpecifier (arg : value) : string :=
  match stringify arg with
  | Ok (Some text) => text
  | Ok None => "undefined"
  | Throw _ => "[Circular]"
  end.

(** [args.length === 0 ? "%%" : "%"] *)
Definition handlePercentPercent (args : list value) : string :=
  if (length args =? 0)%nat then "%%" else "%".

(** The second character of a match of [/%[sdifj%]/]. *)
Definition isSpecifier (c : ascii) : bool :=
  existsb (Ascii.eqb c) (list_ascii_of_string "sdifj%").

(** The replacement callback, on the match ["%" ++ c], with the counter [i]
    passed in and out. *)
Definition replacer (args : list value) (i : nat) (c : ascii) : string * nat :=
  let matched := String "%" (String c EmptyString) in
  if Ascii.eqb c "%" then (handlePercentPercent args, i)
  else if (length args <=? i)%nat then (matched, i)
  else
    let arg := default VUndefined (args !! i) in
    let text :=
      if Ascii.eqb c "s" then stringSpecifier arg
      else if Ascii.eqb c "d" then numberSpecifier numericText arg
      else if Ascii.eqb c "i" then numberSpecifier integerText arg
      else if Ascii.eqb c "f" then numberSpecifier floatText arg
      else if Ascii.eqb c "j" then jsonSpecifier arg
      else matched in
    (text, S i).

(** [f.replace(/%[sdifj%]/g, callback)]: matches are found left to right
    and do not overlap. *)
Fixpoint replaceSpecifiers (args : list value) (i : nat) (f : string) : string * nat :=
  match f with
  | EmptyString => (EmptyString, i)
  | String c rest =>
      match rest with
      | String d rest' =>
          if Ascii.eqb c "%" && isSpecifier d then
            let '(text, i') := replacer args i d in
            let '(out, j) := replaceSpecifiers args i' rest' in
            (text +:+ out, j)
          else
            let '(out, j) := replaceSpecifiers args i rest in
            (String c out, j)
      | EmptyString => (String c EmptyString, i)
      end
  end.

(** How each remaining argument is rendered: the callback of
    [remainingArgs.map]. *)
Definition remainingForm (arg : value) : string :=
  match arg with
  | VNull => "null"
  | VUndefined => "undefined"
  | _ =>
      if String.eqb (typeof arg) "object" then
        match arg with
        | VArr elems => "[ " +:+ arrayJoin ", " elems +:+ " ]"
        | _ =>
            let rendered :=
              map (fun kv =>
                     fst kv +:+ ": " +:+
                     (if String.eqb (typeof (snd kv)) "string"
                      then "'" +:+ toStr (snd kv) +:+ "'"
                      else toStr (snd kv)))
                  (entries arg) in
            "{ " +:+ String.concat ", " rendered +:+ " }"
        end
      else toStr arg
  end.

Definition format (f : value) (args : list value) : string :=
  match f with
  | VStr template =>
      let '(str, i) := replaceSpecifiers args 0 template in
      let remainingArgs := drop i args in
      if (0 <? length remainingArgs)%nat then
        str +:+ " " +:+ String.concat " " (map remainingForm remainingArgs)
      else str
  | _ => String.concat " " (map plainJoinForm (f :: args))
  end.

End Interpolator.

(** A runtime to evaluate examples with.  It is exact on integer-valued
    numbers of magnitude below 10^21 (whose text is their decimal
    expansion) and on numeric coercions of such numbers and of booleans;
    everything else is coerced to [NaN]. *)
Definition exampleCoercion (v : value) : string :=
  match v with
  | VNum n => pretty (integerOf n)
  | VBool b => if b then "1" else "0"
  | _ => "NaN"
  end.

#[global] Instance exampleRuntime : Runtime := {|
  numberText := fun n => pretty (integerOf n);
  numericText := exampleCoercion;
  integerText := exampleCoercion;
  floatText := exampleCoercion;
  circularMessage := "Converting circular structure to JSON";
  typeErrorMessage := fun what => what +:+ " is not a function"
|}.

(** ** The logger's data *)

(** [LoggerOptions]: the constructor's argument.  A property that is left
    out reads as [undefined]. *)
Module LoggerOptions.
Record t : Type := {
  level : value;
  levels : value;
  format : value;
  time : value;
  callerLevel : value;
  colours : value
}.
End LoggerOptions.

(** [this.options] *)
Module Options.
Record t : Type := {
  level : string;
  levels : gmap string Z;
  format : string;
  time : string;
  callerLevel : string;
  colours : gmap string value
}.
End Options.

(** [LogEntry]; [more] holds the properties added past the declared ones. *)
Module LogEntry.
Record t : Type := {
  level : string;
  levelNumber : option Z;
  time : string;
  pid : Z;
  hostname : string;
  msg : string;
  callerFile : option string;
  callerLine : option Z;
  more : list (string * value)
}.
End LogEntry.

(** [Formatter]: at run time a formatter may throw and may return anything.
    It is taken to leave the record it is handed as it found it, as the
    two built-in formatters do. *)
Definition Formatter : Type := LogEntry.t -> Result value.

Module Logger.
Record t : Type := {
  options : Options.t;
  isRedirected : bool;
  formatters : gmap string Formatter;
  callerErrorCount : nat;
  maxCallerErrors : nat
}.
End Logger.

(** The value of [Error.prepareStackTrace]: not set, a function installed by
    somebody else, or the function [getCallerInfo] installs. *)
Inductive Hook : Type :=
| HookUnset
| HookForeign (id : nat)
| HookReturnStack.

(** A call site of the structured stack. *)
Record CallSite : Type := {
  getFileName : string;
  getLineNumber : Z
}.

(** What [err.stack] evaluates to once the hook is installed: the array of
    call sites, or whatever a runtime without the hook gives. *)
Inductive StackValue : Type :=
| StackFrames (frames : list CallSite)
| StackOther (v : value).

(** What one call reads from the host: [new Date().toISOString()],
    [getPid()], [getHostname()] and the stack of a fresh [Error].  The host
    calls themselves, the two console channels included, are taken to
    return. *)
Record Env : Type := {
  now : string;
  pid : Z;
  hostname : string;
  stack : StackValue
}.

(** The logger instance together with the process-wide state it touches.
    [stdout] lists the arguments of the [console.log] calls and [stderr]
    those of the [console.error] calls, oldest first; [inspections] counts
    the stack captures made. *)
Record World : Type := {
  this : Logger.t;
  prepareStackTrace : Hook;
  stdout : list value;
  stderr : list (string * option exn);
  inspections : nat
}.

(** ** A state-and-exception monad *)

Definition M (A : Type) : Type := World -> Result A * World.

Definition ret {A : Type} (a : A) : M A := fun w => (Ok a, w).

Definition bind {A B : Type} (m : M A) (k : A -> M B) : M B :=
  fun w =>
    match m w with
    | (Ok a, w') => k a w'
    | (Throw e, w') => (Throw e, w')
    end.

Definition throw {A : Type} (e : exn) : M A := fun w => (Throw e, w).

(** [try { body } catch (e) { handler e }] *)
Definition tryCatch {A : Type} (body : M A) (handler : exn -> M A) : M A :=
  fun w =>
    match body w with
    | (Ok a, w') => (Ok a, w')
    | (Throw e, w') => handler e w'
    end.

(** [try { body } finally { cleanup }]: the cleanup runs on every exit. *)
Definition tryFinally {A : Type} (body : M A) (cleanup : M unit) : M A :=
  fun w =>
    match body w with
    | (r, w') =>
        match cleanup w' with
        | (Ok _, w'') => (r, w'')
        | (Throw e, w'') => (Throw e, w'')
        end
    end.

Declare Scope js_scope.
Delimit Scope js_scope with js.
Notation "x <- m ;; k" := (bind m (fun x => k))
  (at level 100, m at next level, k at level 200, right associativity) : js_scope.
Notation "m ;; k" := (bind m (fun _ => k))
  (at level 100, k at level 200, right associativity) : js_scope.
Local Open Scope js_scope.

Definition getThis : M Logger.t := fun w => (Ok (this w), w).

Definition getHook : M Hook := fun w => (Ok (prepareStackTrace w), w).

Definition setHook (h : Hook) : M unit :=
  fun w => (Ok tt, {| this := this w; prepareStackTrace := h; stdout := stdout w;
                      stderr := stderr w; inspections := inspections w |}).

Definition setThis (lg : Logger.t) : M unit :=
  fun w => (Ok tt, {| this := lg; prepareStackTrace := prepareStackTrace w;
                      stdout := stdout w; stderr := stderr w;
                      inspections := inspections w |}).

(** [console.log(v)] *)
Definition consoleLog (v : value) : M unit :=
  fun w => (Ok tt, {| this := this w; prepareStackTrace := prepareStackTrace w;
                      stdout := stdout w ++ [v]; stderr := stderr w;
                      inspections := inspections w |}).

(** [console.error(text)] and [console.error(text, e)] *)
Definition consoleError (text : string) (e : option exn) : M unit :=
  fun w => (Ok tt, {| this := this w; prepareStackTrace := prepareStackTrace w;
                      stdout := stdout w; stderr := stderr w ++ [(text, e)];
                      inspections := inspections w |}).

(** [new Error()]: the stack is captured. *)
Definition captureStack : M unit :=
  fun w => (Ok tt, {| this := this w; prepareStackTrace := prepareStackTrace w;
                      stdout := stdout w; stderr := stderr w;
                      inspections := S (inspections w) |}).

Definition withCallerErrorCount (n : nat) (lg : Logger.t) : Logger.t :=
  {| Logger.options := Logger.options lg;
     Logger.isRedirected := Logger.isRedirected lg;
     Logger.formatters := Logger.formatters lg;
     Logger.callerErrorCount := n;
     Logger.maxCallerErrors := Logger.maxCallerErrors lg |}.

Definition withLevel (name : string) (lg : Logger.t) : Logger.t :=
  let o := Logger.options lg in
  {| Logger.options :=
       {| Options.level := name;
          Options.levels := Options.levels o;
          Options.format := Options.format o;
          Options.time := Options.time o;
          Options.callerLevel := Options.callerLevel o;
          Options.colours := Options.colours o |};
     Logger.isRedirected := Logger.isRedirected lg;
     Logger.formatters := Logger.formatters lg;
     Logger.callerErrorCount := Logger.callerErrorCount lg;
     Logger.maxCallerErrors := Logger.maxCallerErrors lg |}.

(** [this.callerErrorCount = n] *)
Definition setCallerErrorCount (n : nat) : M unit :=
  lg <- getThis ;; setThis (withCallerErrorCount n lg).

(** ** Validation and construction *)

Section LoggerCore.
Context `{Runtime}.

Definition andThen {A B : Type} (r : Result A) (k : A -> Result B) : Result B :=
  match r with
  | Ok a => k a
  | Throw e => Throw e
  end.

(** [if (bad) throw new Error(message)] *)
Definition check (bad : bool) (message : string) : Result unit :=
  if bad then Throw (JsError message) else Ok tt.

Definition isUndefined (v : value) : bool :=
  match v with VUndefined => true | _ => false end.

(** [list.includes(v)] for a list of strings. *)
Definition includes (l : list string) (v : value) : bool :=
  match v with
  | VStr s => existsb (String.eqb s) l
  | _ => false
  end.

Definition validLevels : list string := ["silent"; "error"; "warn"; "info"; "debug"].
Definition validFormats : list string := ["json"; "simple"].
Definition validTimes : list string := ["long"; "short"].

(** [Number.isInteger(n)] and [n < 0] on a finite number. *)
Definition isInteger (n : Q) : bool := (Qnum n mod Z.pos (Qden n) =? 0)%Z.
Definition isNegative (n : Q) : bool := (Qnum n <? 0)%Z.

(** [typeof value !== "number" || value < 0 || !Number.isInteger(value)] *)
Definition badLevelValue (v : value) : bool :=
  match v with
  | VNum n => isNegative n || negb (isInteger n)
  | _ => true
  end.

(** The loop over [Object.entries(options.levels)]. *)
Fixpoint validateLevelValues (es : list (string * value)) : Result unit :=
  match es with
  | [] => Ok tt
  | (level, v) :: rest =>
      if badLevelValue v then
        Throw (JsError ("Level value for '" +:+ level +:+ "' must be a non-negative integer"))
      else validateLevelValues rest
  end.

(** [Object.entries(v)] where [v] may be [null]. *)
Definition objectEntries (v : value) : Result (list (string * value)) :=
  match v with
  | VNull | VUndefined => Throw (JsError (typeErrorMessage "Object.entries"))
  | _ => Ok (entries v)
  end.

Definition validateOptions (options : LoggerOptions.t) : Result unit :=
  let level := LoggerOptions.level options in
  let format := LoggerOptions.format options in
  let time := LoggerOptions.time options in
  let callerLevel := LoggerOptions.callerLevel options in
  let colours := LoggerOptions.colours options in
  let levels := LoggerOptions.levels options in
  andThen (check (negb (isUndefined level) && negb (includes validLevels level))
             ("Invalid log level: " +:+ toStr level +:+ ". Valid levels are: " +:+
              String.concat ", " validLevels)) (fun _ =>
  andThen (check (negb (isUndefined format) && negb (includes validFormats format))
             ("Invalid format: " +:+ toStr format +:+ ". Valid formats are: " +:+
              String.concat ", " validFormats)) (fun _ =>
  andThen (check (negb (isUndefined time) && negb (includes validTimes time))
             ("Invalid time: " +:+ toStr time +:+ ". Valid times are: " +:+
              String.concat ", " validTimes)) (fun _ =>
  andThen (check (negb (isUndefined callerLevel) && negb (includes validLevels callerLevel))
             ("Invalid callerLevel: " +:+ toStr callerLevel +:+ ". Valid levels are: " +:+
              String.concat ", " validLevels)) (fun _ =>
  andThen (check (negb (isUndefined colours) && negb (String.eqb (typeof colours) "object"))
             "colours option must be an object") (fun _ =>
  if isUndefined levels then Ok tt
  else
    andThen (check (negb (String.eqb (typeof levels) "object"))
               "levels option must be an object") (fun _ =>
    andThen (objectEntries levels) validateLevelValues)))))).

Definition defaultLevels : gmap string Z :=
  list_to_map [("silent", (-1)%Z); ("error", 0%Z); ("warn", 1%Z); ("info", 2%Z); ("debug", 3%Z)].

Definition escape : string := String "027"%char EmptyString.

Definition defaultColours : gmap string value :=
  list_to_map [("error", VStr (escape +:+ "[91m")); ("warn", VStr (escape +:+ "[33m"));
               ("info", VStr (escape +:+ "[94m")); ("debug", VStr (escape +:+ "[37m"));
               ("reset", VStr (escape +:+ "[0m"))].

(** [Object.assign({}, defaultLevels, source)]; the validated source holds
    integers only. *)
Definition assignLevels (target : gmap string Z) (source : value) : gmap string Z :=
  foldl (fun m kv => match snd kv with
                     | VNum n => <[fst kv := integerOf n]> m
                     | _ => m
                     end) target (entries source).

(** [Object.assign({}, defaultColours, source)] *)
Definition assignColours (target : gmap string value) (source : value) : gmap string value :=
  foldl (fun m kv => <[fst kv := snd kv]> m) target (entries source).

(** [v || fallback] for an option that validation left absent or equal to
    one of the listed names. *)
Definition orElse (v : value) (fallback : string) : string :=
  match v with
  | VStr s => if String.eqb s EmptyString then fallback else s
  | _ => fallback
  end.

(** ** The formatters *)

Definition optionalNumber (o : option Z) : value :=
  match o with
  | Some z => num z
  | None => VUndefined
  end.

Definition optionalString (o : option string) : value :=
  match o with
  | Some s => VStr s
  | None => VUndefined
  end.

(** The own properties of a log entry, in insertion order. *)
Definition entryProps (e : LogEntry.t) : list (string * value) :=
  [("level", VStr (LogEntry.level e));
   ("levelNumber", optionalNumber (LogEntry.levelNumber e));
   ("time", VStr (LogEntry.time e));
   ("pid", num (LogEntry.pid e));
   ("hostname", VStr (LogEntry.hostname e));
   ("msg", VStr (LogEntry.msg e))] ++
  match LogEntry.callerFile e with Some f => [("callerFile", VStr f)] | None => [] end ++
  match LogEntry.callerLine e with Some l => [("callerLine", num l)] | None => [] end ++
  LogEntry.more e.

(** The last resort of [jsonFormatter]: a template literal. *)
Definition jsonLastResort (logEntry : LogEntry.t) : string :=
  "{" +:+ quoted "level" +:+ ":" +:+ quoted (LogEntry.level logEntry) +:+ "," +:+
  quoted "msg" +:+ ":" +:+
  quoted (replaceChar dquote (String dquote EmptyString) (LogEntry.msg logEntry)) +:+ "," +:+
  quoted "jsonError" +:+ ":" +:+ quoted "Multiple JSON errors occurred" +:+ "}".

Definition jsonFormatter : Formatter := fun logEntry =>
  match stringify (VObj (entryProps logEntry)) with
  | Ok o => Ok (optionalString o)
  | Throw error =>
      let safeEntry :=
        VObj [("level", VStr (LogEntry.level logEntry));
              ("levelNumber", optionalNumber (LogEntry.levelNumber logEntry));
              ("time", VStr (LogEntry.time logEntry));
              ("pid", num (LogEntry.pid logEntry));
              ("hostname", VStr (LogEntry.hostname logEntry));
              ("msg", VStr (LogEntry.msg logEntry));
              ("callerFile", optionalString (LogEntry.callerFile logEntry));
              ("callerLine", optionalNumber (LogEntry.callerLine logEntry));
              ("jsonError", VStr ("JSON stringify failed: " +:+ errorMessage error))] in
      match stringify safeEntry with
      | Ok o => Ok (optionalString o)
      | Throw _ => Ok (VStr (jsonLastResort logEntry))
      end
  end.

Definition simpleFormatter : Formatter := fun logEntry =>
  let levelPadded := padEnd 5 (toUpperCase (LogEntry.level logEntry)) in
  let caller :=
    match LogEntry.callerFile logEntry with
    | Some file =>
        if String.eqb file EmptyString then None
        else Some (lastSegment EmptyString file +:+ ":" +:+
                   toStr (optionalNumber (LogEntry.callerLine logEntry)))
    | None => None
    end in
  Ok (VStr
    match caller with
    | Some c =>
        "[" +:+ LogEntry.time logEntry +:+ "] [" +:+ levelPadded +:+ "] [" +:+ c +:+ "] " +:+
        LogEntry.msg logEntry
    | None =>
        "[" +:+ LogEntry.time logEntry +:+ "] [" +:+ levelPadded +:+ "] " +:+
        LogEntry.msg logEntry
    end).

(** [new Logger(options)], given what [isTerminal()] answers. *)
Definition newLogger (isTerminal : bool) (options : LoggerOptions.t) : Result Logger.t :=
  andThen (validateOptions options) (fun _ =>
  Ok {| Logger.options :=
          {| Options.level := orElse (LoggerOptions.level options) "info";
             Options.levels := assignLevels defaultLevels (LoggerOptions.levels options);
             Options.format := orElse (LoggerOptions.format options) "json";
             Options.time := orElse (LoggerOptions.time options) "short";
             Options.callerLevel := orElse (LoggerOptions.callerLevel options) "warn";
             Options.colours := assignColours defaultColours (LoggerOptions.colours options) |};
        Logger.isRedirected := negb isTerminal;
        Logger.formatters := list_to_map [("json", jsonFormatter); ("simple", simpleFormatter)];
        Logger.callerErrorCount := 0;
        Logger.maxCallerErrors := 5 |}).

(** ** Caller detection *)

(** The [while (stack.length)] loop: [callerFile] and [callerLine] are the
    two locals it assigns. *)
Fixpoint scanFrames (currentFile : string) (frames : list CallSite)
    (callerFile : string) (callerLine : Z) : string * Z :=
  match frames with
  | [] => (callerFile, callerLine)
  | stackFrame :: rest =>
      let callerFile := getFileName stackFrame in
      if negb (String.eqb currentFile callerFile) then (callerFile, getLineNumber stackFrame)
      else scanFrames currentFile rest callerFile callerLine
  end.

Definition suppressionNotice (maxCallerErrors : nat) : string :=
  "Caller detection failed " +:+ pretty maxCallerErrors +:+
  " times. Suppressing further caller error messages.".

(** The [catch (e)] block.  A lookup that throws does so before the loop
    has assigned [callerFile] and [callerLine], so what is returned after
    it are their initial values. *)
Definition callerFailure (e : exn) : M (string * Z) :=
  lg <- getThis ;;
  let count := S (Logger.callerErrorCount lg) in
  setCallerErrorCount count ;;
  (if (count <=? Logger.maxCallerErrors lg)%nat then
     consoleError "Error retrieving caller info:" (Some e) ;;
     (if (count =? Logger.maxCallerErrors lg)%nat then
        consoleError (suppressionNotice (Logger.maxCallerErrors lg)) None
      else ret tt)
   else ret tt) ;;
  ret ("unknown", 0%Z).

(** The [try] block, reading [stack] as the value of [err.stack]. *)
Definition callerLookup (stack : StackValue) : M (string * Z) :=
  captureStack ;;
  setHook HookReturnStack ;;
  match stack with
  | StackFrames (first :: rest) =>
      let currentFile := getFileName first in
      let found := scanFrames currentFile rest "unknown" 0%Z in
      setCallerErrorCount 0 ;;
      ret found
  | StackFrames [] => throw (JsError (typeErrorMessage "stack.shift().getFileName"))
  | StackOther _ => throw (JsError (typeErrorMessage "stack.shift"))
  end.

Definition getCallerInfo (stack : StackValue) : M (string * Z) :=
  originalFunc <- getHook ;;
  tryFinally (tryCatch (callerLookup stack) callerFailure) (setHook originalFunc).

(** ** [log] *)

(** [this.options.levels[name]] *)
Definition rank (lg : Logger.t) (name : string) : option Z :=
  Options.levels (Logger.options lg) !! name.

(** [a > b] and [a <= b] on ranks: a comparison with [undefined] is false. *)
Definition jsGt (a b : option Z) : bool :=
  match a, b with
  | Some x, Some y => (y <? x)%Z
  | _, _ => false
  end.

Definition jsLe (a b : option Z) : bool :=
  match a, b with
  | Some x, Some y => (x <=? y)%Z
  | _, _ => false
  end.

(** The gate: [levels[level] > levels[this.options.level]]. *)
Definition gateClosed (lg : Logger.t) (level : string) : bool :=
  jsGt (rank lg level) (rank lg (Options.level (Logger.options lg))).

(** [shouldIncludeCaller] *)
Definition shouldIncludeCaller (lg : Logger.t) (level : string) : bool :=
  jsLe (rank lg level) (rank lg (Options.callerLevel (Logger.options lg))).

(** From the caller decision to the finished [logEntry]. *)
Definition buildEntry (env : Env) (level : string) (message : value) (args : list value)
    : M LogEntry.t :=
  lg <- getThis ;;
  let include := shouldIncludeCaller lg level in
  caller <- (if include then
               found <- getCallerInfo (stack env) ;;
               ret (Some (fst found), Some (snd found))
             else ret (None, None)) ;;
  let time :=
    if String.eqb (Options.time (Logger.options lg)) "long" then now env
    else replaceFirstChar "T" " " (substring 0 16 (now env)) in
  let attach := include && bool_decide (is_Some (fst caller)) && bool_decide (is_Some (snd caller)) in
  ret {| LogEntry.level := level;
         LogEntry.levelNumber := rank lg level;
         LogEntry.time := time;
         LogEntry.pid := pid env;
         LogEntry.hostname := hostname env;
         LogEntry.msg := format message args;
         LogEntry.callerFile := if attach then fst caller else None;
         LogEntry.callerLine := if attach then snd caller else None;
         LogEntry.more := [] |}.

(** Calling what the registry holds under a name. *)
Definition callFormatter (f : option Formatter) (what : string) (logEntry : LogEntry.t)
    : Result value :=
  match f with
  | Some formatter => formatter logEntry
  | None => Throw (JsError (typeErrorMessage what))
  end.

(** [{ ...logEntry, formatterError: text }] *)
Definition withFormatterError (text : string) (e : LogEntry.t) : LogEntry.t :=
  {| LogEntry.level := LogEntry.level e;
     LogEntry.levelNumber := LogEntry.levelNumber e;
     LogEntry.time := LogEntry.time e;
     LogEntry.pid := LogEntry.pid e;
     LogEntry.hostname := LogEntry.hostname e;
     LogEntry.msg := LogEntry.msg e;
     LogEntry.callerFile := LogEntry.callerFile e;
     LogEntry.callerLine := LogEntry.callerLine e;
     LogEntry.more := LogEntry.more e ++ [("formatterError", VStr text)] |}.

(** The minimal output of [log], built when the JSON fallback throws too. *)
Definition minimalOutput (logEntry : LogEntry.t) (error : exn) : string :=
  "{" +:+ quoted "level" +:+ ":" +:+ quoted (LogEntry.level logEntry) +:+ "," +:+
  quoted "msg" +:+ ":" +:+
  quoted (replaceChar dquote (String dquote EmptyString) (LogEntry.msg logEntry)) +:+ "," +:+
  quoted "formatterError" +:+ ":" +:+
  quoted ("Formatter failed: " +:+ errorMessage error) +:+ "}".

(** The first, guarded call of the selected formatter, with the check of the
    type of its result. *)
Definition firstAttempt (lg : Logger.t) (logEntry : LogEntry.t) : Result value :=
  let formatter :=
    match Logger.formatters lg !! Options.format (Logger.options lg) with
    | Some f => Some f
    | None => Logger.formatters lg !! "json"
    end in
  andThen (callFormatter formatter "formatter" logEntry) (fun formattedLog =>
  if negb (String.eqb (typeof formattedLog) "string") then
    Throw (JsError ("Formatter returned " +:+ typeof formattedLog +:+ " instead of string"))
  else Ok formattedLog).

(** The fail-safe rendering: what [formattedLog] holds in the end. *)
Definition render (lg : Logger.t) (logEntry : LogEntry.t) : value :=
  match firstAttempt lg logEntry with
  | Ok formattedLog => formattedLog
  | Throw error =>
      let safeEntry :=
        withFormatterError ("Formatter failed: " +:+ errorMessage error) logEntry in
      match callFormatter (Logger.formatters lg !! "json") "this.formatters.json" safeEntry with
      | Ok formattedLog => formattedLog
      | Throw _ => VStr (minimalOutput logEntry error)
      end
  end.

(** [this.options.colours[name]] *)
Definition colourOf (lg : Logger.t) (name : string) : value :=
  default VUndefined (Options.colours (Logger.options lg) !! name).

Definition log (env : Env) (level : string) (message : value) (args : list value) : M unit :=
  lg <- getThis ;;
  if gateClosed lg level then ret tt
  else
    logEntry <- buildEntry env level message args ;;
    let colour := colourOf lg level in
    let resetColour := colourOf lg "reset" in
    let formattedLog := render lg logEntry in
    if Logger.isRedirected lg then consoleLog formattedLog
    else consoleLog (VStr (toStr colour +:+ toStr formattedLog +:+ toStr resetColour)).

Definition error (env : Env) (message : value) (args : list value) : M unit :=
  log env "error" message args.

Definition warn (env : Env) (message : value) (args : list value) : M unit :=
  log env "warn" message args.

Definition info (env : Env) (message : value) (args : list value) : M unit :=
  log env "info" message args.

Definition debug (env : Env) (message : value) (args : list value) : M unit :=
  log env "debug" message args.

(** ** The level accessor

    [arguments] lists what a typed caller passes: level names, or
    [undefined] (here [None]). *)
Definition level (arguments : list (option string)) : M string :=
  lg <- getThis ;;
  match arguments with
  | Some newLevel :: _ =>
      if bool_decide (is_Some (Options.levels (Logger.options lg) !! newLevel)) then
        setThis (withLevel newLevel lg) ;;
        lg' <- getThis ;;
        ret (Options.level (Logger.options lg'))
      else throw (JsError ("Invalid log level: " +:+ newLevel))
  | _ => ret (Options.level (Logger.options lg))
  end.

Definition setLevel (arguments : list (option string)) : M string :=
  match arguments with
  | [] => level []
  | newLevel :: _ => level [newLevel]
  end.

End LoggerCore.

(** ** Reference definitions

    The display form of a value as the documentation words it: [null] and
    [undefined] by name, an array in brackets, an object in braces with its
    string values in single quotes, anything else as its plain text. *)

Section Reference.
Context `{Runtime}.

Definition propertyText (kv : string * value) : string :=
  fst kv +:+ ": " +:+
  match snd kv with
  | VStr s => "'" +:+ s +:+ "'"
  | v => toStr v
  end.

Definition displayForm (v : value) : string :=
  match v with
  | VNull => "null"
  | VUndefined => "undefined"
  | VArr elems => "[ " +:+ arrayJoin ", " elems +:+ " ]"
  | VObj _ | VSelfRef _ _ => "{ " +:+ String.concat ", " (map propertyText (entries v)) +:+ " }"
  | _ => toStr v
  end.

(** The display form the plain join uses: compact JSON text for arrays and
    objects, [[object Object]] when there is none. *)
Definition compactForm (v : value) : string :=
  match v with
  | VArr _ | VObj _ | VSelfRef _ _ =>
      match stringify v with
      | Ok (Some text) => text
      | _ => "[object Object]"
      end
  | _ => displayForm v
  end.

(** The message with its quotes escaped. *)
Definition escapeQuotes (s : string) : string :=
  replaceChar dquote (String backslash (String dquote EmptyString)) s.

(** A rank is acceptable when it is a number, not negative, and whole. *)
Definition nonNegativeInteger (v : value) : Prop :=
  match v with
  | VNum n => (0 <= Qnum n)%Z /\ (Z.pos (Qden n) | Qnum n)%Z
  | _ => False
  end.

(** A stack on which the lookup throws, and the error it throws. *)
Definition stackFails (s : StackValue) : bool :=
  match s with
  | StackFrames (_ :: _) => false
  | _ => true
  end.

Definition stackError (s : StackValue) : exn :=
  match s with
  | StackOther _ => JsError (typeErrorMessage "stack.shift")
  | StackFrames _ => JsError (typeErrorMessage "stack.shift().getFileName")
  end.

(** A run of caller lookups, one per stack. *)
Fixpoint lookups (stacks : list StackValue) : M unit :=
  match stacks with
  | [] => ret tt
  | s :: rest => getCallerInfo s ;; lookups rest
  end.

(** The record an emit call builds, if it builds one. *)
Definition recordOf (env : Env) (level : string) (message : value) (args : list value)
    (w : World) : option LogEntry.t :=
  if gateClosed (this w) level then None
  else
    match buildEntry env level message args w with
    | (Ok logEntry, _) => Some logEntry
    | (Throw _, _) => None
    end.

End Reference.

(** Options with one property replaced. *)
Definition withLevelsOption (v : value) (o : LoggerOptions.t) : LoggerOptions.t :=
  {| LoggerOptions.level := LoggerOptions.level o;
     LoggerOptions.levels := v;
     LoggerOptions.format := LoggerOptions.format o;
     LoggerOptions.time := LoggerOptions.time o;
     LoggerOptions.callerLevel := LoggerOptions.callerLevel o;
     LoggerOptions.colours := LoggerOptions.colours o |}.

Definition withLevelOption (v : value) (o : LoggerOptions.t) : LoggerOptions.t :=
  {| LoggerOptions.level := v;
     LoggerOptions.levels := LoggerOptions.levels o;
     LoggerOptions.format := LoggerOptions.format o;
     LoggerOptions.time := LoggerOptions.time o;
     LoggerOptions.callerLevel := LoggerOptions.callerLevel o;
     LoggerOptions.colours := LoggerOptions.colours o |}.

(** ** Concrete loggers and calls for the examples *)

(** [new Logger()] *)
Definition noOptions : LoggerOptions.t :=
  {| LoggerOptions.level := VUndefined;
     LoggerOptions.levels := VUndefined;
     LoggerOptions.format := VUndefined;
     LoggerOptions.time := VUndefined;
     LoggerOptions.callerLevel := VUndefined;
     LoggerOptions.colours := VUndefined |}.

(** The logger [new Logger()] builds when the output is redirected. *)
Definition defaultLogger `{Runtime} : Logger.t :=
  {| Logger.options :=
       {| Options.level := "info";
          Options.levels := defaultLevels;
          Options.format := "json";
          Options.time := "short";
          Options.callerLevel := "warn";
          Options.colours := defaultColours |};
     Logger.isRedirected := true;
     Logger.formatters := list_to_map [("json", jsonFormatter); ("simple", simpleFormatter)];
     Logger.callerErrorCount := 0;
     Logger.maxCallerErrors := 5 |}.

Definition freshWorld (lg : Logger.t) : World :=
  {| this := lg; prepareStackTrace := HookUnset; stdout := []; stderr := [];
     inspections := 0 |}.

(** A call made from [/app/main.ts], line 42, through [error] and [log]. *)
Definition sampleEnv : Env :=
  {| now := "2024-01-15T10:30:45.123Z";
     pid := 1234;
     hostname := "localhost";
     stack := StackFrames
                [{| getFileName := "/lib/logger.ts"; getLineNumber := 588 |};
                 {| getFileName := "/lib/logger.ts"; getLineNumber := 637 |};
                 {| getFileName := "/lib/logger.ts"; getLineNumber := 728 |};
                 {| getFileName := "/app/main.ts"; getLineNumber := 42 |}] |}.

(** The same call on a runtime whose [err.stack] stays a text. *)
Definition textStackEnv : Env :=
  {| now := "2024-01-15T10:30:45.123Z";
     pid := 1234;
     hostname := "localhost";
     stack := StackOther (VStr "Error at main.ts:42") |}.

(** [logger.formatters.json = function () { throw new Error(...) }] *)
Definition brokenFormatter : Formatter :=
  fun _ => Throw (JsError "JSON formatter is broken").

Definition withFormatter (name : string) (f : Formatter) (lg : Logger.t) : Logger.t :=
  {| Logger.options := Logger.options lg;
     Logger.isRedirected := Logger.isRedirected lg;
     Logger.formatters := <[name := f]> (Logger.formatters lg);
     Logger.callerErrorCount := Logger.callerErrorCount lg;
     Logger.maxCallerErrors := Logger.maxCallerErrors lg |}.

(** The text [say "hi"]. *)
Definition sayHi : string := "say " +:+ quoted "hi".

(** The default logger after [logger.formatters.json] has been replaced by
    a function that throws. *)
Definition brokenJsonLogger `{Runtime} : Logger.t :=
  withFormatter "json" brokenFormatter defaultLogger.

(** [new Logger({ format: "simple" })] after [logger.formatters.simple] has
    been replaced by a function that throws. *)
Definition brokenSimpleLogger `{Runtime} : Logger.t :=
  {| Logger.options :=
       {| Options.level := "info";
          Options.levels := defaultLevels;
          Options.format := "simple";
          Options.time := "short";
          Options.callerLevel := "warn";
          Options.colours := defaultColours |};
     Logger.isRedirected := true;
     Logger.formatters :=
       <["simple" := brokenFormatter]>
         (list_to_map [("json", jsonFormatter); ("simple", simpleFormatter)]);
     Logger.callerErrorCount := 0;
     Logger.maxCallerErrors := 5 |}.

(** What the diagnostic channel receives at the [k]-th failure in a row
    when the ceiling is five: the error for the first five, the notice
    after the fifth, nothing from the sixth on. *)
Definition failureReports (k : nat) (e : exn) : list (string * option exn) :=
  if (k <? 5)%nat then [("Error retrieving caller info:", Some e)]
  else if (k =? 5)%nat then
    [("Error retrieving caller info:", Some e); (suppressionNotice 5, None)]
  else [].

(** The reports of a run of failures whose first one is the [k]-th in a
    row. *)
Fixpoint runReports `{Runtime} (k : nat) (stacks : list StackValue)
    : list (string * option exn) :=
  match stacks with
  | [] => []
  | s :: rest => failureReports k (stackError s) ++ runReports (S k) rest
  end.

(** The record of [logger.warn("disk %s", "full")] on the default logger. *)
Definition sampleWarnEntry : LogEntry.t :=
  {| LogEntry.level := "warn";
     LogEntry.levelNumber := Some 1%Z;
     LogEntry.time := "2024-01-15 10:30";
     LogEntry.pid := 1234;
     LogEntry.hostname := "localhost";
     LogEntry.msg := "disk full";
     LogEntry.callerFile := Some "/app/main.ts";
     LogEntry.callerLine := Some 42%Z;
     LogEntry.more := [] |}.

(** ** The host queries: [runtime], [getPid], [getHostname], [isTerminal] *)

(** The [Deno] namespace, as far as the logger reads it.  [Deno.hostname()]
    may throw (it needs a permission). *)
Record DenoNamespace : Type := {
  Deno_pid : Z;
  Deno_hostname : Result string;
  Deno_stdout_isTerminal : bool
}.

(** [NodeProcess] *)
Record ProcessVersions : Type := {
  versions_node : option string;
  versions_bun : option string
}.

Record ProcessStdout : Type := {
  isTTY : option bool
}.

Record NodeProcess : Type := {
  process_pid : Z;
  versions : option ProcessVersions;
  process_stdout : option ProcessStdout
}.

(** The module [os], as far as the logger reads it: [hostname?: () => string]. *)
Record OsModule : Type := {
  os_hostname : option (Result string)
}.

(** A [require] function: what requiring a module by name gives. *)
Definition RequireFn : Type := string -> Result (option OsModule).

(** The global scope: [Deno], [globalThis.process], [globalThis.require] and
    what [eval('require')] evaluates to. *)
Record GlobalScope : Type := {
  Deno : option DenoNamespace;
  process : option NodeProcess;
  require : option RequireFn;
  evalRequire : Result (option RequireFn)
}.

(** [Boolean(s)] for an optional string. *)
Definition truthyText (o : option string) : bool :=
  match o with
  | Some s => negb (String.eqb s EmptyString)
  | None => false
  end.

(** [runtime.isDeno], [runtime.isNode], [runtime.isBun] *)
Definition isDeno (g : GlobalScope) : bool :=
  match Deno g with Some _ => true | None => false end.

Definition isNode (g : GlobalScope) : bool :=
  match process g with
  | Some p => truthyText (match versions p with Some v => versions_node v | None => None end)
  | None => false
  end.

Definition isBun (g : GlobalScope) : bool :=
  match process g with
  | Some p => truthyText (match versions p with Some v => versions_bun v | None => None end)
  | None => false
  end.

Definition getPid (g : GlobalScope) : Z :=
  match Deno g with
  | Some deno => Deno_pid deno
  | None =>
      match process g with
      | Some p => if (process_pid p =? 0)%Z then 0%Z else process_pid p
      | None => 0%Z
      end
  end.

(** The guarded block of [getHostname]: the three steps, each of which may
    throw, and the final [|| 'localhost']. *)
Definition hostnameFromOs (g : GlobalScope) : Result string :=
  andThen (match require g with
           | Some f => Ok (Some f)
           | None => evalRequire g
           end) (fun requireFn =>
  andThen (match requireFn with
           | Some f => f "os"
           | None => Ok None
           end) (fun os =>
  andThen (match os with
           | Some m =>
               match os_hostname m with
               | Some call => andThen call (fun name => Ok (Some name))
               | None => Ok None
               end
           | None => Ok None
           end) (fun name =>
  Ok (if truthyText name then default EmptyString name else "localhost")))).

Definition getHostname (g : GlobalScope) : Result string :=
  match Deno g with
  | Some deno => Deno_hostname deno
  | None =>
      if isNode g || isBun g then
        match hostnameFromOs g with
        | Ok name => Ok name
        | Throw _ => Ok "localhost"
        end
      else Ok "localhost"
  end.

Definition isTerminal (g : GlobalScope) : bool :=
  match Deno g with
  | Some deno => Deno_stdout_isTerminal deno
  | None =>
      match process g with
      | Some p =>
          match process_stdout p with
          | Some out => default false (isTTY out)
          | None => false
          end
      | None => false
      end
  end.

(** A Node.js process whose [os.hostname()] answers [name]. *)
Definition nodeScope (name : string) : GlobalScope :=
  {| Deno := None;
     process := Some {| process_pid := 4242;
                        versions := Some {| versions_node := Some "22.0.0";
                                             versions_bun := None |};
                        process_stdout := Some {| isTTY := Some true |} |};
     require := Some (fun _ => Ok (Some {| os_hostname := Some (Ok name) |}));
     evalRequire := Throw (JsError "require is not defined") |}.

(** ** Reference definitions for the interpolator *)

(** The number of matches of [/%[sdifj%]/g] in a template that are not
    [%%], found as [replace] finds them. *)
Fixpoint countSpecifiers (f : string) : nat :=
  match f with
  | EmptyString => 0
  | String c rest =>
      match rest with
      | String d rest' =>
          if Ascii.eqb c "%" && isSpecifier d then
            (if Ascii.eqb d "%" then 0 else 1) + countSpecifiers rest'
          else countSpecifiers rest
      | EmptyString => 0
      end
  end.

(** Whether a text holds the character [c]. *)
Fixpoint occurs (c : ascii) (s : string) : bool :=
  match s with
  | EmptyString => false
  | String x rest => Ascii.eqb x c || occurs c rest
  end.

(** Whether a value holds, at any depth, an object that refers to itself. *)
Fixpoint cyclic (v : value) : bool :=
  match v with
  | VArr elems => existsb cyclic elems
  | VObj props => existsb (fun kv => cyclic (snd kv)) props
  | VSelfRef _ _ => true
  | _ => false
  end.

(** Induction over values, through the arrays and the objects. *)
Section ValueInduction.
Variable P : value -> Prop.
Hypothesis Hundefined : P VUndefined.
Hypothesis Hnull : P VNull.
Hypothesis Hbool : forall b, P (VBool b).
Hypothesis Hnum : forall n, P (VNum n).
Hypothesis Hstr : forall s, P (VStr s).
Hypothesis Harr : forall elems, Forall P elems -> P (VArr elems).
Hypothesis Hobj : forall props, Forall (fun kv => P (snd kv)) props -> P (VObj props).
Hypothesis Hself : forall props key, P (VSelfRef props key).

Fixpoint value_induction (v : value) : P v :=
  match v with
  | VUndefined => Hundefined
  | VNull => Hnull
  | VBool b => Hbool b
  | VNum n => Hnum n
  | VStr s => Hstr s
  | VArr elems =>
      Harr elems
        ((fix go (l : list value) : Forall P l :=
            match l with
            | [] => List.Forall_nil P
            | x :: rest => List.Forall_cons P x rest (value_induction x) (go rest)
            end) elems)
  | VObj props =>
      Hobj props
        ((fix go (l : list (string * value)) : Forall (fun kv => P (snd kv)) l :=
            match l with
            | [] => List.Forall_nil (fun kv => P (snd kv))
            | kv :: rest =>
                List.Forall_cons (fun kv => P (snd kv)) kv rest
                  (value_induction (snd kv)) (go rest)
            end) props)
  | VSelfRef props key => Hself props key
  end.

End ValueInduction.

(** What [JSON.stringify] does on the values modelled here: it throws on
    those that hold an object that refers to itself and returns on the
    others. *)
Definition stringifyOutcome `{Runtime} (v : value) : Prop :=
  (cyclic v = true -> stringify v = Throw (JsError circularMessage)) /\
  (cyclic v = false -> exists o, stringify v = Ok o).

(** A record with an added field that refers to itself. *)
Definition cyclicEntry : LogEntry.t :=
  {| LogEntry.level := "warn";
     LogEntry.levelNumber := Some 1%Z;
     LogEntry.time := "2024-01-15 10:30";
     LogEntry.pid := 1234;
     LogEntry.hostname := "localhost";
     LogEntry.msg := "disk full";
     LogEntry.callerFile := Some "/app/main.ts";
     LogEntry.callerLine := Some 42%Z;
     LogEntry.more := [("ctx", VSelfRef [] "self")] |}.

(** ** Reference definitions for validation and for runs of calls *)

(** An option that names one of [names], or is left out. *)
Definition nameAccepted (names : list string) (v : value) : Prop :=
  v = VUndefined \/ exists s, v = VStr s /\ In s names.

(** A [colours] option that passes: left out, or of type [object]. *)
Definition coloursAccepted (v : value) : Prop :=
  v = VUndefined \/ typeof v = "object".

(** A [levels] option that passes: left out, or an object other than
    [null] whose every entry is a whole number that is not negative. *)
Definition levelsAccepted (v : value) : Prop :=
  v = VUndefined \/
  (typeof v = "object" /\ v <> VNull /\
   Forall (fun kv => nonNegativeInteger (snd kv)) (entries v)).

Definition withColoursOption (v : value) (o : LoggerOptions.t) : LoggerOptions.t :=
  {| LoggerOptions.level := LoggerOptions.level o;
     LoggerOptions.levels := LoggerOptions.levels o;
     LoggerOptions.format := LoggerOptions.format o;
     LoggerOptions.time := LoggerOptions.time o;
     LoggerOptions.callerLevel := LoggerOptions.callerLevel o;
     LoggerOptions.colours := v |}.

(** A call made on the logger. *)
Inductive Operation : Type :=
| CallLevel (arguments : list (option string))
| CallSetLevel (arguments : list (option string))
| CallLog (env : Env) (level : string) (message : value) (args : list value).

(** The state a call leaves behind, whether it returns or throws. *)
Definition perform `{Runtime} (w : World) (op : Operation) : World :=
  match op with
  | CallLevel arguments => snd (level arguments w)
  | CallSetLevel arguments => snd (setLevel arguments w)
  | CallLog env name message args => snd (log env name message args w)
  end.

(** The state after a sequence of calls, made one after the other by a
    caller that catches what they throw. *)
Definition performAll `{Runtime} (ops : list Operation) (w : World) : World :=
  foldl perform w ops.

(** One emit call per name, in order. *)
Definition emitEach `{Runtime} (env : Env) (message : value) (args : list value)
    (names : list string) (w : World) : World :=
  foldl (fun w name => snd (log env name message args w)) w names.

(** Two states of a logger that differ at most in the failure count. *)
Definition sameSettings (a b : Logger.t) : Prop :=
  Logger.options b = Logger.options a /\
  Logger.isRedirected b = Logger.isRedirected a /\
  Logger.formatters b = Logger.formatters a /\
  Logger.maxCallerErrors b = Logger.maxCallerErrors a.

(** Two states of a logger that differ at most in the current level and in
    the failure count. *)
Definition sameConfiguration (a b : Logger.t) : Prop :=
  Options.levels (Logger.options b) = Options.levels (Logger.options a) /\
  Options.format (Logger.options b) = Options.format (Logger.options a) /\
  Options.time (Logger.options b) = Options.time (Logger.options a) /\
  Options.callerLevel (Logger.options b) = Options.callerLevel (Logger.options a) /\
  Options.colours (Logger.options b) = Options.colours (Logger.options a) /\
  Logger.isRedirected b = Logger.isRedirected a /\
  Logger.formatters b = Logger.formatters a /\
  Logger.maxCallerErrors b = Logger.maxCallerErrors a.

(** [new Logger({ levels: { custom: 4, error: 7 } })], output redirected. *)
Definition customLevelsLogger `{Runtime} : Logger.t :=
  {| Logger.options :=
       {| Options.level := "info";
          Options.levels :=
            assignLevels defaultLevels (VObj [("custom", num 4); ("error", num 7)]);
          Options.format := "json";
          Options.time := "short";
          Options.callerLevel := "warn";
          Options.colours := defaultColours |};
     Logger.isRedirected := true;
     Logger.formatters := list_to_map [("json", jsonFormatter); ("simple", simpleFormatter)];
     Logger.callerErrorCount := 0;
     Logger.maxCallerErrors := 5 |}.

(** The record of [logger.info("started")] on the default logger. *)
Definition sampleInfoEntry : LogEntry.t :=
  {| LogEntry.level := "info";
     LogEntry.levelNumber := Some 2%Z;
     LogEntry.time := "2024-01-15 10:30";
     LogEntry.pid := 1234;
     LogEntry.hostname := "localhost";
     LogEntry.msg := "started";
     LogEntry.callerFile := None;
     LogEntry.callerLine := None;
     LogEntry.more := [] |}.

(** [logger.formatters.simple = () => 42] *)
Definition numberFormatter : Formatter := fun _ => Ok (num 42).

(** [new Logger({ format: "simple" })] after [logger.formatters.simple] has
    been replaced by a function that returns a number. *)
Definition wrongTypeLogger `{Runtime} : Logger.t :=
  withFormatter "simple" numberFormatter brokenSimpleLogger.

(** [delete logger.formatters[name]] *)
Definition withoutFormatter (name : string) (lg : Logger.t) : Logger.t :=
  {| Logger.options := Logger.options lg;
     Logger.isRedirected := Logger.isRedirected lg;
     Logger.formatters := delete name (Logger.formatters lg);
     Logger.callerErrorCount := Logger.callerErrorCount lg;
     Logger.maxCallerErrors := Logger.maxCallerErrors lg |}.

(** [new Logger({ format: "simple" })] after both formatters have been
    deleted from the registry. *)
Definition emptyRegistryLogger `{Runtime} : Logger.t :=
  withoutFormatter "json" (withoutFormatter "simple" brokenSimpleLogger).

(** [logger.level("debug")], [logger.error("x")], then
    [logger.setLevel("verbose")], which throws. *)
Definition sampleOperations : list Operation :=
  [CallLevel [Some "debug"];
   CallLog sampleEnv "error" (VStr "x") [];
   CallSetLevel [Some "verbose"]].

(** ** Reference definitions for the scan of a template *)

(** A template cut the way [/%[sdifj%]/g] cuts it: the characters that
    belong to no match, and the matches, each given by its second
    character. *)
Inductive Piece : Type :=
| Literal (c : ascii)
| Match (d : ascii).

Definition pieceText (p : Piece) : string :=
  match p with
  | Literal c => String c EmptyString
  | Match d => String "%" (String d EmptyString)
  end.

(** The template a list of pieces spells. *)
Fixpoint templateOf (pieces : list Piece) : string :=
  match pieces with
  | [] => EmptyString
  | p :: rest => pieceText p +:+ templateOf rest
  end.

Definition startsWithSpecifier (s : string) : bool :=
  match s with
  | String d _ => isSpecifier d
  | EmptyString => false
  end.

(** Whether the pieces are the cut the regular expression makes of the
    template they spell: every match ends with one of the six characters,
    and no literal [%] stands right before one of them (there the
    expression would have matched). *)
Fixpoint regexCut (pieces : list Piece) : bool :=
  match pieces with
  | [] => true
  | Literal c :: rest =>
      negb (Ascii.eqb c "%" && startsWithSpecifier (templateOf rest)) && regexCut rest
  | Match d :: rest => isSpecifier d && regexCut rest
  end.

(** The callback applied to the matches in turn, the characters between
    them kept. *)
Fixpoint scanPieces `{Runtime} (args : list value) (i : nat) (pieces : list Piece)
    : string * nat :=
  match pieces with
  | [] => (EmptyString, i)
  | Literal c :: rest =>
      (String c (fst (scanPieces args i rest)), snd (scanPieces args i rest))
  | Match d :: rest =>
      (fst (replacer args i d) +:+ fst (scanPieces args (snd (replacer args i d)) rest),
       snd (scanPieces args (snd (replacer args i d)) rest))
  end.

(** Pieces whose only matches are [%%]. *)
Definition percentOnly (pieces : list Piece) : bool :=
  forallb (fun p => match p with
                    | Literal _ => true
                    | Match d => Ascii.eqb d "%"
                    end) pieces.

(** The text of the pieces with one [%] in the place of every match. *)
Fixpoint collapsed (pieces : list Piece) : string :=
  match pieces with
  | [] => EmptyString
  | Literal c :: rest => String c (collapsed rest)
  | Match _ :: rest => String "%" (collapsed rest)
  end.

(** A text no character of which belongs to a match, as pieces. *)
Definition literals (s : string) : list Piece :=
  map Literal (list_ascii_of_string s).

(** What a specifier other than [%%] makes of the argument it is given:
    the [switch (match)]. *)
Definition conversion `{Runtime} (d : ascii) (arg : value) : string :=
  if Ascii.eqb d "s" then stringSpecifier arg
  else if Ascii.eqb d "d" then numberSpecifier numericText arg
  else if Ascii.eqb d "i" then numberSpecifier integerText arg
  else if Ascii.eqb d "f" then numberSpecifier floatText arg
  else if Ascii.eqb d "j" then jsonSpecifier arg
  else String "%" (String d EmptyString).

(** ** Reference definitions for the JSON line *)

(** One member of an object's JSON text, and the text of an object. *)
Definition member (key text : string) : string := jsonQuote key +:+ ":" +:+ text.

Definition objectText (members : list string) : string :=
  "{" +:+ String.concat "," members +:+ "}".

(** The members of the declared fields of a record, in the order in which
    [log] sets them; a field that is absent has no member. *)
Definition declaredMembers `{Runtime} (e : LogEntry.t) : list string :=
  [member "level" (jsonQuote (LogEntry.level e))] ++
  match LogEntry.levelNumber e with
  | Some n => [member "levelNumber" (numberText (inject_Z n))]
  | None => []
  end ++
  [member "time" (jsonQuote (LogEntry.time e));
   member "pid" (numberText (inject_Z (LogEntry.pid e)));
   member "hostname" (jsonQuote (LogEntry.hostname e));
   member "msg" (jsonQuote (LogEntry.msg e))] ++
  match LogEntry.callerFile e with
  | Some file => [member "callerFile" (jsonQuote file)]
  | None => []
  end ++
  match LogEntry.callerLine e with
  | Some line => [member "callerLine" (numberText (inject_Z line))]
  | None => []
  end.

(** ** Reference definition for the output *)

(** What [console.log] is handed for a rendering: the rendering itself when
    the output is redirected, the rendering between the level's colour and
    the reset colour when it is a terminal. *)
Definition consoleArgument `{Runtime} (lg : Logger.t) (level : string) (formattedLog : value)
    : value :=
  if Logger.isRedirected lg then formattedLog
  else VStr (toStr (colourOf lg level) +:+ toStr formattedLog +:+
             toStr (colourOf lg "reset")).

(** The four emitting methods with the level each of them logs at. *)
Definition emitters `{Runtime} : list ((Env -> value -> list value -> M unit) * string) :=
  [(error, "error"); (warn, "warn"); (info, "info"); (debug, "debug")].

(** * Properties *)

(** ** The interpolator *)

Section InterpolatorFacts.
Context `{Runtime}.

Lemma append_cons (x : ascii) (a b : string) : String x a +:+ b = String x (a +:+ b).
Proof. reflexivity. Qed.

Lemma append_associative (a b c : string) : (a +:+ b) +:+ c = a +:+ (b +:+ c).
Proof.
  induction a as [|x a IH]; [reflexivity|].
  rewrite !append_cons, IH. reflexivity.
Qed.

(** Templates are scanned two characters at a time. *)
Lemma string_pair_ind (P : string -> Prop) :
  P EmptyString ->
  (forall c, P (String c EmptyString)) ->
  (forall c d s, P s -> P (String d s) -> P (String c (String d s))) ->
  forall s, P s.
Proof.
  intros Hnil Hone Hstep s.
  assert (Hboth : P s /\ forall c, P (String c s)).
  { induction s as [|d s [IHs IHd]].
    - split; [exact Hnil | exact Hone].
    - split; [apply IHd | intros c; apply Hstep; [exact IHs | apply IHd]]. }
  exact (proj1 Hboth).
Qed.

Lemma replaceSpecifiers_step (args : list value) (i : nat) (c d : ascii) (rest : string) :
  replaceSpecifiers args i (String c (String d rest)) =
  if Ascii.eqb c "%" && isSpecifier d then
    (fst (replacer args i d) +:+ fst (replaceSpecifiers args (snd (replacer args i d)) rest),
     snd (replaceSpecifiers args (snd (replacer args i d)) rest))
  else
    (String c (fst (replaceSpecifiers args i (String d rest))),
     snd (replaceSpecifiers args i (String d rest))).
Proof.
  change (replaceSpecifiers args i (String c (String d rest))) with
    (if Ascii.eqb c "%" && isSpecifier d then
       let '(text, i') := replacer args i d in
       let '(out, j) := replaceSpecifiers args i' rest in (text +:+ out, j)
     else
       let '(out, j) := replaceSpecifiers args i (String d rest) in (String c out, j)).
  destruct (Ascii.eqb c "%" && isSpecifier d).
  - destruct (replacer args i d) as [text i']. cbn [fst snd].
    destruct (replaceSpecifiers args i' rest) as [out j]. reflexivity.
  - destruct (replaceSpecifiers args i (String d rest)) as [out j]. reflexivity.
Qed.

Lemma replaceSpecifiers_match (args : list value) (i : nat) (d : ascii) (rest : string) :
  isSpecifier d = true ->
  replaceSpecifiers args i (String "%" (String d rest)) =
  (fst (replacer args i d) +:+ fst (replaceSpecifiers args (snd (replacer args i d)) rest),
   snd (replaceSpecifiers args (snd (replacer args i d)) rest)).
Proof.
  intros Hd. rewrite replaceSpecifiers_step, Hd. reflexivity.
Qed.

Lemma replacer_percent (args : list value) (i : nat) :
  replacer args i "%" = (handlePercentPercent args, i).
Proof. reflexivity. Qed.

Lemma replacer_exhausted (args : list value) (i : nat) (c : ascii) :
  c <> "%"%char -> length args <= i ->
  replacer args i c = (String "%" (String c EmptyString), i).
Proof.
  intros Hc Hi. unfold replacer.
  destruct (Ascii.eqb_spec c "%") as [->|_]; [contradiction|].
  destruct (Nat.leb_spec (length args) i) as [_|Hlt]; [reflexivity | lia].
Qed.

Lemma replaceSpecifiers_no_args (template : string) :
  forall i, replaceSpecifiers [] i template = (template, i).
Proof.
  induction template as [|c|c d s IHs IHd] using string_pair_ind; intros i.
  - reflexivity.
  - reflexivity.
  - rewrite replaceSpecifiers_step.
    destruct (Ascii.eqb c "%" && isSpecifier d) eqn:Hm.
    + apply andb_prop in Hm as [Hc Hd]. apply Ascii.eqb_eq in Hc. subst c.
      assert (Hr : replacer [] i d = (String "%" (String d EmptyString), i)).
      { unfold replacer. destruct (Ascii.eqb d "%") eqn:Hp.
        - apply Ascii.eqb_eq in Hp. subst d. reflexivity.
        - reflexivity. }
      rewrite Hr. cbn [fst snd]. rewrite IHs. reflexivity.
    + rewrite IHd. reflexivity.
Qed.

(** The scan seen from [format]: a template that starts with a match. *)
Lemma format_at_match (args : list value) (d : ascii) (rest : string) :
  isSpecifier d = true ->
  snd (replacer args 0 d) = 0 ->
  format (VStr (String "%" (String d rest))) args =
  fst (replacer args 0 d) +:+ format (VStr rest) args.
Proof.
  intros Hd Hi. unfold format. rewrite (replaceSpecifiers_match args 0 d rest Hd).
  rewrite Hi. destruct (replaceSpecifiers args 0 rest) as [out j]. cbn [fst snd].
  destruct (0 <? length (drop j args))%nat; [|reflexivity].
  rewrite !append_associative. reflexivity.
Qed.


(** *** Display forms *)

Lemma stringify_array_text (elems : list value) :
  stringify (VArr elems) <> Ok None.
Proof.
  cbn [stringify]. destruct (collect (map stringify elems)); discriminate.
Qed.

Lemma stringify_object_text (props : list (string * value)) :
  stringify (VObj props) <> Ok None.
Proof.
  cbn [stringify].
  match goal with |- context [collect ?l] => destruct (collect l) end; discriminate.
Qed.

Lemma plainJoinForm_compact (arg : value) : plainJoinForm arg = compactForm arg.
Proof.
  destruct arg as [| |b|n|s|elems|props|props key]; try reflexivity.
  - unfold plainJoinForm, compactForm. cbn [typeof String.eqb].
    change (String.eqb "object" "object") with true. cbn match.
    pose proof (stringify_array_text elems) as Hne.
    destruct (stringify (VArr elems)) as [[text|]|e]; [reflexivity | congruence | reflexivity].
  - unfold plainJoinForm, compactForm.
    change (String.eqb (typeof (VObj props)) "object") with true. cbn match.
    pose proof (stringify_object_text props) as Hne.
    destruct (stringify (VObj props)) as [[text|]|e]; [reflexivity | congruence | reflexivity].
Qed.

Lemma property_text (kv : string * value) :
  fst kv +:+ ": " +:+
  (if String.eqb (typeof (snd kv)) "string"
   then "'" +:+ toStr (snd kv) +:+ "'" else toStr (snd kv)) =
  propertyText kv.
Proof. destruct kv as [k [| |b|n|s|elems|props|props key]]; reflexivity. Qed.

Lemma remainingForm_display (arg : value) : remainingForm arg = displayForm arg.
Proof.
  destruct arg as [| |b|n|s|elems|props|props key]; try reflexivity;
    unfold remainingForm, displayForm;
    change (String.eqb (typeof _) "object") with true; cbv iota zeta;
    rewrite (map_ext _ _ property_text); reflexivity.
Qed.

Lemma stringSpecifier_display (arg : value) : stringSpecifier arg = displayForm arg.
Proof.
  destruct arg as [| |b|n|s|elems|props|props key]; try reflexivity;
    unfold stringSpecifier, displayForm;
    change (String.eqb (typeof _) "object") with true; cbv iota zeta;
    rewrite (map_ext _ _ property_text); reflexivity.
Qed.

(** *** The scan, match by match *)

Lemma templateOf_cons (p : Piece) (rest : list Piece) :
  templateOf (p :: rest) =
  match p with
  | Literal c => String c (templateOf rest)
  | Match d => String "%" (String d (templateOf rest))
  end.
Proof. destruct p; reflexivity. Qed.

Lemma startsWithSpecifier_app (a b : list Piece) :
  a <> [] ->
  startsWithSpecifier (templateOf (a ++ b)) = startsWithSpecifier (templateOf a).
Proof.
  destruct a as [|p a]; [contradiction|]. intros _.
  cbn [app]. rewrite !templateOf_cons. destruct p; reflexivity.
Qed.

Lemma regexCut_app (a b : list Piece) :
  regexCut (a ++ b) = true -> regexCut a = true /\ regexCut b = true.
Proof.
  induction a as [|p a IH]; cbn [app]; intros Hcut.
  - split; [reflexivity | exact Hcut].
  - destruct p as [c|d]; cbn [regexCut] in Hcut |- *;
      apply andb_prop in Hcut as [Hhead Hrest];
      destruct (IH Hrest) as [Ha Hb]; rewrite Ha; split; try exact Hb.
    + rewrite andb_true_r.
      destruct a as [|q a]; [rewrite andb_false_r; reflexivity|].
      rewrite <- (startsWithSpecifier_app (q :: a) b) by discriminate. exact Hhead.
    + rewrite Hhead. reflexivity.
Qed.

(** On the cut the regular expression makes, the scan is the callback
    applied to the matches in turn. *)
Lemma replaceSpecifiers_pieces (args : list value) (pieces : list Piece) :
  regexCut pieces = true ->
  forall i, replaceSpecifiers args i (templateOf pieces) = scanPieces args i pieces.
Proof.
  induction pieces as [|p rest IH]; intros Hcut i; [reflexivity|].
  rewrite templateOf_cons.
  destruct p as [c|d]; cbn [regexCut] in Hcut; apply andb_prop in Hcut as [Hhead Hrest];
    cbn [scanPieces]; rewrite <- !(IH Hrest).
  - destruct (templateOf rest) as [|d s] eqn:Htemplate; [reflexivity|].
    rewrite replaceSpecifiers_step.
    cbn [startsWithSpecifier] in Hhead. apply negb_true_iff in Hhead.
    rewrite Hhead. reflexivity.
  - rewrite replaceSpecifiers_match by exact Hhead. reflexivity.
Qed.

Lemma scanPieces_app (args : list value) (a b : list Piece) :
  forall i,
    scanPieces args i (a ++ b) =
    (fst (scanPieces args i a) +:+ fst (scanPieces args (snd (scanPieces args i a)) b),
     snd (scanPieces args (snd (scanPieces args i a)) b)).
Proof.
  induction a as [|p a IH]; intros i; cbn [app].
  - cbn [scanPieces fst snd]. change (EmptyString +:+ ?x) with x.
    destruct (scanPieces args i b); reflexivity.
  - destruct p as [c|d]; cbn [scanPieces fst snd]; rewrite IH; cbn [fst snd].
    + rewrite append_cons. reflexivity.
    + rewrite append_associative. reflexivity.
Qed.

(** The scan of a template around one of its matches. *)
Lemma replaceSpecifiers_around (args : list value) (before after : list Piece) (d : ascii) :
  regexCut (before ++ Match d :: after) = true ->
  forall i,
    replaceSpecifiers args i (templateOf (before ++ Match d :: after)) =
    let j := snd (replaceSpecifiers args i (templateOf before)) in
    (fst (replaceSpecifiers args i (templateOf before)) +:+
     fst (replacer args j d) +:+
     fst (replaceSpecifiers args (snd (replacer args j d)) (templateOf after)),
     snd (replaceSpecifiers args (snd (replacer args j d)) (templateOf after))).
Proof.
  intros Hcut i.
  destruct (regexCut_app _ _ Hcut) as [Hbefore Hmatch].
  assert (Hafter : regexCut after = true)
    by (cbn [regexCut] in Hmatch; apply andb_prop in Hmatch as [_ Hafter]; exact Hafter).
  rewrite (replaceSpecifiers_pieces args _ Hcut), scanPieces_app.
  cbn [scanPieces fst snd].
  rewrite <- !(replaceSpecifiers_pieces args _ Hbefore).
  rewrite <- !(replaceSpecifiers_pieces args _ Hafter).
  reflexivity.
Qed.

Lemma scanPieces_percentOnly (a : value) (args : list value) (pieces : list Piece) :
  percentOnly pieces = true ->
  forall i, scanPieces (a :: args) i pieces = (collapsed pieces, i).
Proof.
  induction pieces as [|p rest IH]; intros Honly i; [reflexivity|].
  cbn [percentOnly forallb] in Honly. apply andb_prop in Honly as [Hhead Hrest].
  destruct p as [c|d]; cbn [scanPieces collapsed].
  - rewrite (IH Hrest). reflexivity.
  - apply Ascii.eqb_eq in Hhead. subst d. rewrite replacer_percent. cbn [fst snd].
    rewrite (IH Hrest). reflexivity.
Qed.

(** Every template has such a cut. *)
Lemma regexCut_exists (template : string) :
  exists pieces, regexCut pieces = true /\ templateOf pieces = template.
Proof.
  induction template as [|c|c d s [ps [Hps Hs]] [pd [Hpd Hd]]] using string_pair_ind.
  - exists []. split; reflexivity.
  - exists [Literal c]. split; [cbn; rewrite andb_false_r; reflexivity | reflexivity].
  - destruct (Ascii.eqb c "%" && isSpecifier d) eqn:Hmatch.
    + apply andb_prop in Hmatch as [Hc Hspec]. apply Ascii.eqb_eq in Hc. subst c.
      exists (Match d :: ps). split.
      * cbn [regexCut]. rewrite Hspec, Hps. reflexivity.
      * rewrite templateOf_cons, Hs. reflexivity.
    + exists (Literal c :: pd). split.
      * cbn [regexCut]. rewrite Hd, Hpd. cbn [startsWithSpecifier].
        rewrite Hmatch. reflexivity.
      * rewrite templateOf_cons, Hd. reflexivity.
Qed.

(** C4.  The [%%] rule.  With no extra argument a template comes out of
    [format] and of the scan unchanged, every [%%] and every other
    specifier in it included, and the argument counter stays where it was.
    With at least one extra argument every [%%] is replaced by a single
    [%], wherever it stands in the template and wherever the argument
    counter stands when it is met: the text before it and the text after
    it are scanned as they would be on their own, with the same counter
    after the [%%] as before it, so a [%%] consumes nothing.  A template
    whose only matches are [%%] thus becomes the same text with one [%]
    for each [%%], and every argument is appended after it.  A specifier
    other than [%%] met, anywhere in the template, when the counter has
    reached the number of arguments is left as it is written and leaves
    the counter alone.  Every template is spelled by a list of pieces that
    is the cut the regular expression makes of it. *)
Theorem format_percent_percent :
  (forall template, format (VStr template) [] = template) /\
  (forall i template, replaceSpecifiers [] i template = (template, i)) /\
  (forall i rest,
     replaceSpecifiers [] i ("%%" +:+ rest) =
     ("%%" +:+ fst (replaceSpecifiers [] i rest), snd (replaceSpecifiers [] i rest))) /\
  (forall a args i rest,
     replaceSpecifiers (a :: args) i ("%%" +:+ rest) =
     ("%" +:+ fst (replaceSpecifiers (a :: args) i rest),
      snd (replaceSpecifiers (a :: args) i rest))) /\
  (forall a args rest,
     format (VStr ("%%" +:+ rest)) (a :: args) = "%" +:+ format (VStr rest) (a :: args)) /\
  (forall args i c rest,
     isSpecifier c = true -> c <> "%"%char -> length args <= i ->
     replaceSpecifiers args i (String "%" (String c rest)) =
     (String "%" (String c (fst (replaceSpecifiers args i rest))),
      snd (replaceSpecifiers args i rest))) /\
  (forall a args i before after,
     regexCut (before ++ Match "%" :: after) = true ->
     replaceSpecifiers (a :: args) i (templateOf (before ++ Match "%" :: after)) =
     let j := snd (replaceSpecifiers (a :: args) i (templateOf before)) in
     (fst (replaceSpecifiers (a :: args) i (templateOf before)) +:+ "%" +:+
      fst (replaceSpecifiers (a :: args) j (templateOf after)),
      snd (replaceSpecifiers (a :: args) j (templateOf after)))) /\
  (forall a args pieces,
     regexCut pieces = true -> percentOnly pieces = true ->
     (forall i, replaceSpecifiers (a :: args) i (templateOf pieces) = (collapsed pieces, i)) /\
     format (VStr (templateOf pieces)) (a :: args) =
     collapsed pieces +:+ " " +:+ String.concat " " (map displayForm (a :: args))) /\
  (forall args i before d after,
     regexCut (before ++ Match d :: after) = true ->
     d <> "%"%char ->
     length args <= snd (replaceSpecifiers args i (templateOf before)) ->
     replaceSpecifiers args i (templateOf (before ++ Match d :: after)) =
     let j := snd (replaceSpecifiers args i (templateOf before)) in
     (fst (replaceSpecifiers args i (templateOf before)) +:+
      String "%" (String d (fst (replaceSpecifiers args j (templateOf after)))),
      snd (replaceSpecifiers args j (templateOf after)))) /\
  (forall template, exists pieces, regexCut pieces = true /\ templateOf pieces = template).
Proof.
  repeat apply conj; [| | | | | | | | | exact regexCut_exists].
  - intros template. unfold format.
    rewrite replaceSpecifiers_no_args. reflexivity.
  - intros i template. apply replaceSpecifiers_no_args.
  - intros i rest.
    change ("%%" +:+ rest) with (String "%" (String "%" rest)).
    rewrite replaceSpecifiers_match by reflexivity.
    rewrite replacer_percent. reflexivity.
  - intros a args i rest.
    change ("%%" +:+ rest) with (String "%" (String "%" rest)).
    rewrite replaceSpecifiers_match by reflexivity.
    rewrite replacer_percent. reflexivity.
  - intros a args rest.
    change ("%%" +:+ rest) with (String "%" (String "%" rest)).
    rewrite format_at_match by reflexivity. reflexivity.
  - intros args i c rest Hc Hne Hi.
    rewrite replaceSpecifiers_match by exact Hc.
    rewrite replacer_exhausted by assumption. reflexivity.
  - intros a args i before after Hcut.
    rewrite (replaceSpecifiers_around _ _ _ _ Hcut). cbv zeta.
    rewrite replacer_percent. reflexivity.
  - intros a args pieces Hcut Honly.
    assert (Hscan : forall i,
               replaceSpecifiers (a :: args) i (templateOf pieces) = (collapsed pieces, i)).
    { intros i. rewrite (replaceSpecifiers_pieces _ _ Hcut).
      apply scanPieces_percentOnly. exact Honly. }
    split; [exact Hscan|].
    unfold format. rewrite Hscan. cbn [drop length Nat.ltb Nat.leb].
    rewrite (map_ext _ _ remainingForm_display). reflexivity.
  - intros args i before d after Hcut Hne Hi.
    rewrite (replaceSpecifiers_around _ _ _ _ Hcut). cbv zeta.
    rewrite replacer_exhausted by assumption. cbn [fst snd].
    rewrite !append_cons. reflexivity.
Qed.

(** C5, as the code has it.  When the template is not a string, [format]
    joins with single spaces the forms of all its arguments, template
    included, where [null] and [undefined] are rendered by name, an array
    or an object as its compact JSON text ([[object Object]] when it has
    none) and anything else as its plain text.  After a string template,
    the arguments the specifiers have not consumed are appended, joined by
    single spaces, in the display form with brackets and braces, which is
    also the form [%s] gives. *)
Theorem format_display_forms :
  (forall f args,
     typeof f <> "string" ->
     format f args = String.concat " " (map compactForm (f :: args))) /\
  (forall template args,
     format (VStr template) args =
     let remaining := drop (snd (replaceSpecifiers args 0 template)) args in
     match remaining with
     | [] => fst (replaceSpecifiers args 0 template)
     | _ :: _ =>
         fst (replaceSpecifiers args 0 template) +:+ " " +:+
         String.concat " " (map displayForm remaining)
     end) /\
  (forall arg, stringSpecifier arg = displayForm arg).
Proof.
  split; [|split].
  - intros f args Hf.
    destruct f as [| |b|n|s|elems|props|props key];
      try (unfold format; rewrite (map_ext _ _ plainJoinForm_compact); reflexivity).
    exfalso. apply Hf. reflexivity.
  - intros template args. unfold format.
    destruct (replaceSpecifiers args 0 template) as [str i]. cbn [fst snd].
    destruct (drop i args) as [|a rest]; [reflexivity|].
    cbn [length Nat.ltb Nat.leb].
    rewrite (map_ext _ _ remainingForm_display). reflexivity.
  - exact stringSpecifier_display.
Qed.

End InterpolatorFacts.

Lemma format_percent_percent_witness :
  format (VStr "Progress: 50%% complete") [VStr "x"] = "Progress: 50% complete x" /\
  replaceSpecifiers [VStr "a"] 0 "%s and %d, 100%%" = ("a and %d, 100%", 1).
Proof.
  split.
  - exact (proj2 (proj1 (proj2 (proj2 (proj2 (proj2 (proj2 (proj2 (proj2
             (format_percent_percent (H := exampleRuntime)))))))))
             (VStr "x") [] (literals "Progress: 50" ++ Match "%" :: literals " complete")
             eq_refl eq_refl)).
  - exact (proj1 (proj2 (proj2 (proj2 (proj2 (proj2 (proj2 (proj2 (proj2
             (format_percent_percent (H := exampleRuntime))))))))))
             [VStr "a"] 0 (Match "s" :: literals " and ") "d"%char
             (literals ", 100" ++ [Match "%"]) eq_refl
             ltac:(discriminate) ltac:(vm_compute; lia)).
Defined.

Lemma format_display_forms_witness :
  format VNull [VArr [num 1; num 2]; VStr "s"] = "null [1,2] s".
Proof.
  exact (proj1 (format_display_forms (H := exampleRuntime))
           VNull [VArr [num 1; num 2]; VStr "s"] ltac:(discriminate)).
Defined.

(** C5 as worded fails on an array handed over as the template: the plain
    join gives its JSON text, not the bracket form. *)
Lemma plain_join_is_not_display_form :
  format (VArr [num 1; num 2]) [] = "[1,2]" /\
  String.concat " " (map displayForm [VArr [num 1; num 2]]) = "[ 1, 2 ]" /\
  format (VArr [num 1; num 2]) [] <> String.concat " " (map displayForm [VArr [num 1; num 2]]).
Proof. repeat split; vm_compute; congruence. Qed.

(** ** Validation and construction *)

Section ConstructionFacts.
Context `{Runtime}.

Lemma badLevelValue_false (v : value) :
  badLevelValue v = false <-> nonNegativeInteger v.
Proof.
  destruct v as [| |b|n|s|elems|props|props key]; cbn [badLevelValue nonNegativeInteger];
    try (split; [discriminate | contradiction]).
  unfold isNegative, isInteger. rewrite orb_false_iff, negb_false_iff.
  rewrite Z.ltb_ge, Z.eqb_eq.
  rewrite Z.mod_divide by discriminate. reflexivity.
Qed.

Lemma validateLevelValues_ok (es : list (string * value)) :
  validateLevelValues es = Ok tt <-> Forall (fun kv => nonNegativeInteger (snd kv)) es.
Proof.
  induction es as [|[k v] rest IH]; cbn [validateLevelValues].
  - split; [constructor | reflexivity].
  - destruct (badLevelValue v) eqn:Hbad.
    + split; [discriminate|].
      intros Hall. inversion Hall as [|? ? Hv _]; subst.
      apply badLevelValue_false in Hv. cbn [snd] in Hv. congruence.
    + rewrite IH. split.
      * intros Hrest. constructor; [apply badLevelValue_false; exact Hbad | exact Hrest].
      * intros Hall. inversion Hall; assumption.
Qed.

(** The level values are checked last and on their own. *)
Lemma validateOptions_levels_last (options : LoggerOptions.t) (props : list (string * value)) :
  validateOptions (withLevelsOption VUndefined options) = Ok tt ->
  validateOptions (withLevelsOption (VObj props) options) = validateLevelValues props.
Proof.
  unfold validateOptions, withLevelsOption, check, andThen.
  cbn [LoggerOptions.level LoggerOptions.levels LoggerOptions.format LoggerOptions.time
       LoggerOptions.callerLevel LoggerOptions.colours isUndefined typeof objectEntries entries].
  rewrite String.eqb_refl. cbn [negb].
  repeat match goal with
         | |- context [if ?b && ?c then Throw _ else Ok tt] => destruct (b && c)
         end; try discriminate.
  intros _. reflexivity.
Qed.

(** The level name is checked first, against the fixed list. *)
Lemma validateOptions_level_first (options : LoggerOptions.t) (name : string) :
  validateOptions (withLevelOption (VStr name) options) =
  if existsb (String.eqb name) validLevels
  then validateOptions (withLevelOption VUndefined options)
  else Throw (JsError ("Invalid log level: " +:+ name +:+ ". Valid levels are: " +:+
                       String.concat ", " validLevels)).
Proof.
  unfold validateOptions, withLevelOption, check, andThen.
  cbn [LoggerOptions.level LoggerOptions.levels LoggerOptions.format LoggerOptions.time
       LoggerOptions.callerLevel LoggerOptions.colours isUndefined includes negb andb toStr].
  destruct (existsb (String.eqb name) validLevels); reflexivity.
Qed.

Lemma newLogger_ok (isTerminal : bool) (options : LoggerOptions.t) :
  (exists lg, newLogger isTerminal options = Ok lg) <-> validateOptions options = Ok tt.
Proof.
  unfold newLogger, andThen. destruct (validateOptions options) as [[]|e].
  - split; [reflexivity | eauto].
  - split; [intros [lg Hlg]; discriminate | discriminate].
Qed.

Lemma includes_validLevels (name : string) :
  existsb (String.eqb name) validLevels = true <-> In name validLevels.
Proof.
  rewrite existsb_exists. split.
  - intros [x [Hin Heq]]. apply String.eqb_eq in Heq. subst x. exact Hin.
  - intros Hin. exists name. split; [exact Hin | apply String.eqb_refl].
Qed.

(** [Object.assign] keeps every key of its target. *)
Lemma assignLevels_keeps (source : value) (target : gmap string Z) (name : string) :
  is_Some (target !! name) -> is_Some (assignLevels target source !! name).
Proof.
  unfold assignLevels. generalize (entries source) as es. intros es. revert target.
  induction es as [|[k v] rest IH]; intros target Hsome; cbn [foldl]; [exact Hsome|].
  apply IH. cbn [fst snd]. destruct v; try exact Hsome.
  destruct (decide (k = name)) as [->|Hne].
  - rewrite lookup_insert_eq. eauto.
  - rewrite lookup_insert_ne by exact Hne. exact Hsome.
Qed.

Lemma defaultLevels_valid (name : string) :
  In name validLevels -> is_Some (defaultLevels !! name) /\ name <> EmptyString.
Proof.
  intros Hin. cbn in Hin.
  repeat (destruct Hin as [<-|Hin]; [split; [vm_compute; eauto | discriminate]|]).
  contradiction.
Qed.

(** C6, as the code has it.  With the other options valid, construction
    with a [levels] object succeeds exactly when every rank it supplies,
    that of [silent] like any other, is a number that is whole and not
    negative; so a [levels] object that gives [silent] a rank that is not
    one is refused. *)
Theorem validateOptions_levels_ranks (isTerminal : bool) (options : LoggerOptions.t)
    (props : list (string * value)) :
  validateOptions (withLevelsOption VUndefined options) = Ok tt ->
  ((exists lg, newLogger isTerminal (withLevelsOption (VObj props) options) = Ok lg) <->
   Forall (fun kv => nonNegativeInteger (snd kv)) props) /\
  (forall v lg,
     In ("silent", v) props -> ~ nonNegativeInteger v ->
     newLogger isTerminal (withLevelsOption (VObj props) options) <> Ok lg).
Proof.
  intros Hother.
  assert (Hiff : (exists lg, newLogger isTerminal (withLevelsOption (VObj props) options) = Ok lg) <->
                 Forall (fun kv => nonNegativeInteger (snd kv)) props).
  { rewrite newLogger_ok, (validateOptions_levels_last _ _ Hother).
    apply validateLevelValues_ok. }
  split; [exact Hiff|].
  intros v lg Hin Hbad Hok.
  assert (Hall : Forall (fun kv => nonNegativeInteger (snd kv)) props)
    by (apply Hiff; eauto).
  rewrite Forall_forall in Hall. apply Hbad.
  apply (Hall ("silent", v)). apply list_elem_of_In. exact Hin.
Qed.

(** C7, as the code has it.  With the other options valid, construction
    with a [level] name succeeds exactly when the name is one of [silent],
    [error], [warn], [info] and [debug], whatever the [levels] option
    supplies; the name is then the current level of the logger and a key of
    its merged level table. *)
Theorem validateOptions_level_names (isTerminal : bool) (options : LoggerOptions.t)
    (name : string) :
  validateOptions (withLevelOption VUndefined options) = Ok tt ->
  ((exists lg, newLogger isTerminal (withLevelOption (VStr name) options) = Ok lg) <->
   In name validLevels) /\
  (forall lg,
     newLogger isTerminal (withLevelOption (VStr name) options) = Ok lg ->
     Options.level (Logger.options lg) = name /\
     is_Some (Options.levels (Logger.options lg) !! name)).
Proof.
  intros Hother.
  assert (Hiff : (exists lg, newLogger isTerminal (withLevelOption (VStr name) options) = Ok lg) <->
                 In name validLevels).
  { rewrite newLogger_ok, validateOptions_level_first, <- includes_validLevels.
    destruct (existsb (String.eqb name) validLevels).
    - split; [reflexivity | intros _; exact Hother].
    - split; discriminate. }
  split; [exact Hiff|].
  intros lg Hlg.
  assert (Hin : In name validLevels) by (apply Hiff; eauto).
  destruct (defaultLevels_valid name Hin) as [Hsome Hne].
  unfold newLogger, andThen in Hlg.
  destruct (validateOptions (withLevelOption (VStr name) options)) as [[]|e];
    [|discriminate].
  injection Hlg as <-. cbn [Logger.options Options.level Options.levels].
  split.
  - cbn [withLevelOption LoggerOptions.level orElse].
    destruct (String.eqb_spec name EmptyString) as [Heq|_]; [contradiction | reflexivity].
  - apply assignLevels_keeps. exact Hsome.
Qed.

Lemma newLogger_default : newLogger false noOptions = Ok defaultLogger.
Proof. reflexivity. Qed.

End ConstructionFacts.

(** [levels: { custom: 4 }] *)
Lemma validateOptions_levels_ranks_witness :
  (exists lg, newLogger false (withLevelsOption (VObj [("custom", num 4)]) noOptions) = Ok lg) <->
  Forall (fun kv => nonNegativeInteger (snd kv)) [("custom", num 4)].
Proof.
  exact (proj1 (validateOptions_levels_ranks (H := exampleRuntime) false noOptions
                  [("custom", num 4)] eq_refl)).
Defined.

(** C6 as worded fails on [levels: { silent: -1 }]. *)
Lemma silent_rank_is_validated :
  newLogger false (withLevelsOption (VObj [("silent", num (-1))]) noOptions) =
  Throw (JsError "Level value for 'silent' must be a non-negative integer").
Proof. reflexivity. Qed.

(** [level: "debug"] *)
Lemma validateOptions_level_names_witness :
  (exists lg, newLogger false (withLevelOption (VStr "debug") noOptions) = Ok lg) <->
  In "debug" validLevels.
Proof.
  exact (proj1 (validateOptions_level_names (H := exampleRuntime) false noOptions
                  "debug" eq_refl)).
Defined.

(** C7 as worded fails on [levels: { custom: 4 }, level: "custom"]: the name
    is a key of the merged table and the construction is refused. *)
Lemma custom_level_is_refused :
  assignLevels defaultLevels (VObj [("custom", num 4)]) !! "custom" = Some 4%Z /\
  newLogger false
    (withLevelOption (VStr "custom") (withLevelsOption (VObj [("custom", num 4)]) noOptions)) =
  Throw (JsError
    "Invalid log level: custom. Valid levels are: silent, error, warn, info, debug").
Proof. split; vm_compute; reflexivity. Qed.

(** ** Caller detection *)

Section CallerFacts.
Context `{Runtime}.

Lemma getCallerInfo_found (first : CallSite) (rest : list CallSite) (w : World) :
  getCallerInfo (StackFrames (first :: rest)) w =
  (Ok (scanFrames (getFileName first) rest "unknown" 0%Z),
   {| this := withCallerErrorCount 0 (this w);
      prepareStackTrace := prepareStackTrace w;
      stdout := stdout w;
      stderr := stderr w;
      inspections := S (inspections w) |}).
Proof. reflexivity. Qed.

Lemma getCallerInfo_failed (s : StackValue) (w : World) :
  stackFails s = true ->
  getCallerInfo s w =
  (Ok ("unknown", 0%Z),
   {| this := withCallerErrorCount (S (Logger.callerErrorCount (this w))) (this w);
      prepareStackTrace := prepareStackTrace w;
      stdout := stdout w;
      stderr :=
        stderr w ++
        (if (S (Logger.callerErrorCount (this w)) <=? Logger.maxCallerErrors (this w))%nat then
           ("Error retrieving caller info:", Some (stackError s)) ::
           (if (S (Logger.callerErrorCount (this w)) =? Logger.maxCallerErrors (this w))%nat
            then [(suppressionNotice (Logger.maxCallerErrors (this w)), None)] else [])
         else []);
      inspections := S (inspections w) |}).
Proof.
  intros Hfails.
  assert (Hthrow : callerLookup s w =
                   (Throw (stackError s),
                    {| this := this w; prepareStackTrace := HookReturnStack;
                       stdout := stdout w; stderr := stderr w;
                       inspections := S (inspections w) |})).
  { destruct s as [[|first rest]|v]; [reflexivity | discriminate | reflexivity]. }
  unfold getCallerInfo, bind, getHook, tryFinally, tryCatch. rewrite Hthrow.
  unfold callerFailure, bind, getThis, setCallerErrorCount, bind, getThis, setThis.
  cbn [this prepareStackTrace stdout stderr inspections withCallerErrorCount
       Logger.callerErrorCount Logger.maxCallerErrors].
  destruct (S (Logger.callerErrorCount (this w)) <=? Logger.maxCallerErrors (this w))%nat;
    [destruct (S (Logger.callerErrorCount (this w)) =? Logger.maxCallerErrors (this w))%nat|];
    unfold consoleError, ret, setHook;
    cbn [this prepareStackTrace stdout stderr inspections];
    rewrite <- ?app_assoc, ?app_nil_r; reflexivity.
Qed.

(** Every lookup returns, and touches neither the output nor the options. *)
Lemma getCallerInfo_returns (s : StackValue) (w : World) :
  exists c w',
    getCallerInfo s w = (Ok c, w') /\
    prepareStackTrace w' = prepareStackTrace w /\
    stdout w' = stdout w /\
    inspections w' = S (inspections w).
Proof.
  destruct (stackFails s) eqn:Hs.
  - rewrite (getCallerInfo_failed s w Hs). eexists _, _. repeat split.
  - destruct s as [[|first rest]|v]; try discriminate.
    rewrite getCallerInfo_found. eexists _, _. repeat split.
Qed.

Lemma failureReports_code (k : nat) (e : exn) :
  (if (k <=? 5)%nat then
     ("Error retrieving caller info:", Some e) ::
     (if (k =? 5)%nat then [(suppressionNotice 5, None)] else [])
   else []) = failureReports k e.
Proof.
  unfold failureReports.
  destruct (Nat.leb_spec k 5), (Nat.ltb_spec k 5), (Nat.eqb_spec k 5);
    try reflexivity; lia.
Qed.

Lemma lookups_failures (stacks : list StackValue) :
  forall w,
    Forall (fun s => stackFails s = true) stacks ->
    Logger.maxCallerErrors (this w) = 5 ->
    fst (lookups stacks w) = Ok tt /\
    Logger.callerErrorCount (this (snd (lookups stacks w))) =
      Logger.callerErrorCount (this w) + length stacks /\
    stderr (snd (lookups stacks w)) =
      stderr w ++ runReports (S (Logger.callerErrorCount (this w))) stacks.
Proof.
  induction stacks as [|s rest IH]; intros w Hall Hmax.
  - cbn. rewrite Nat.add_0_r, app_nil_r. repeat split.
  - inversion Hall as [|? ? Hs Hrest]; subst.
    pose proof (getCallerInfo_failed s w Hs) as Hfail.
    rewrite Hmax, failureReports_code in Hfail.
    assert (Hstep : lookups (s :: rest) w = lookups rest (snd (getCallerInfo s w))).
    { cbn [lookups]. unfold bind. rewrite Hfail. reflexivity. }
    rewrite Hstep, Hfail. cbn [snd].
    match goal with |- context [lookups rest ?w1] => specialize (IH w1 Hrest Hmax) end.
    cbn [this withCallerErrorCount Logger.callerErrorCount stderr] in IH.
    destruct IH as (Hres & Hcount & Herr).
    cbn [runReports length]. rewrite Hres, Hcount, Herr, <- app_assoc.
    repeat split. lia.
Qed.

(** C8.  A logger is built with a failure count of zero and a ceiling of
    five.  With that ceiling, the [k]-th lookup failure in a row leaves the
    count at [k] and reports the error when [k] is below five, the error
    and then the suppression notice when [k] is five, and nothing when [k]
    is above five; a run of failures that starts from a count of zero
    reports exactly that, failure by failure.  A lookup that succeeds puts
    the count back to zero and reports nothing. *)
Theorem caller_failure_reports :
  (forall isTerminal options lg,
     newLogger isTerminal options = Ok lg ->
     Logger.callerErrorCount lg = 0 /\ Logger.maxCallerErrors lg = 5) /\
  (forall s w,
     stackFails s = true -> Logger.maxCallerErrors (this w) = 5 ->
     let k := S (Logger.callerErrorCount (this w)) in
     let w' := snd (getCallerInfo s w) in
     fst (getCallerInfo s w) = Ok ("unknown", 0%Z) /\
     Logger.callerErrorCount (this w') = k /\
     Logger.maxCallerErrors (this w') = 5 /\
     (k < 5 -> stderr w' = stderr w ++ [("Error retrieving caller info:", Some (stackError s))]) /\
     (k = 5 -> stderr w' = stderr w ++ [("Error retrieving caller info:", Some (stackError s));
                                         (suppressionNotice 5, None)]) /\
     (k > 5 -> stderr w' = stderr w)) /\
  (forall stacks w,
     Forall (fun s => stackFails s = true) stacks ->
     Logger.callerErrorCount (this w) = 0 -> Logger.maxCallerErrors (this w) = 5 ->
     Logger.callerErrorCount (this (snd (lookups stacks w))) = length stacks /\
     stderr (snd (lookups stacks w)) = stderr w ++ runReports 1 stacks) /\
  (forall s w,
     stackFails s = false ->
     Logger.callerErrorCount (this (snd (getCallerInfo s w))) = 0 /\
     stderr (snd (getCallerInfo s w)) = stderr w).
Proof.
  split; [|split; [|split]].
  - intros isTerminal options lg Hlg. unfold newLogger, andThen in Hlg.
    destruct (validateOptions options); [|discriminate].
    injection Hlg as <-. split; reflexivity.
  - intros s w Hs Hmax k w'. subst k w'.
    rewrite (getCallerInfo_failed s w Hs), Hmax, failureReports_code.
    cbn [fst snd this stderr withCallerErrorCount Logger.callerErrorCount
         Logger.maxCallerErrors].
    unfold failureReports. repeat split; try assumption.
    + intros Hk. apply Nat.ltb_lt in Hk. rewrite Hk. reflexivity.
    + intros Hk. rewrite Hk. reflexivity.
    + intros Hk.
      destruct (Nat.ltb_spec (S (Logger.callerErrorCount (this w))) 5); [lia|].
      destruct (Nat.eqb_spec (S (Logger.callerErrorCount (this w))) 5); [lia|].
      apply app_nil_r.
  - intros stacks w Hall Hzero Hmax.
    destruct (lookups_failures stacks w Hall Hmax) as (_ & Hcount & Herr).
    rewrite Hcount, Herr, Hzero. split; reflexivity.
  - intros s w Hs. destruct s as [[|first rest]|v]; try discriminate.
    rewrite getCallerInfo_found. split; reflexivity.
Qed.

(** C10.  Whatever the stack inspection does, [getCallerInfo] leaves
    [Error.prepareStackTrace] as it found it, although the guarded part
    alone leaves its own function installed; and so does every emit call,
    [log] making no other use of the hook. *)
Theorem getCallerInfo_restores_hook :
  (forall s w, prepareStackTrace (snd (getCallerInfo s w)) = prepareStackTrace w) /\
  (forall s w,
     prepareStackTrace (snd (tryCatch (callerLookup s) callerFailure w)) = HookReturnStack) /\
  (forall env level message args w,
     prepareStackTrace (snd (log env level message args w)) = prepareStackTrace w).
Proof.
  split; [|split].
  - intros s w. destruct (getCallerInfo_returns s w) as (c & w' & Heq & Hhook & _).
    rewrite Heq. exact Hhook.
  - intros s w. unfold tryCatch.
    destruct s as [[|first rest]|v]; cbn;
      repeat match goal with
             | |- context [if ?b then _ else _] => destruct b; cbn
             end; reflexivity.
  - intros env level message args w. unfold log, bind at 1, getThis.
    destruct (gateClosed (this w) level); [reflexivity|].
    unfold bind at 1, buildEntry, bind at 1, getThis.
    destruct (shouldIncludeCaller (this w) level).
    + unfold bind at 1, bind at 1.
      destruct (getCallerInfo_returns (stack env) w) as (c & w' & Heq & Hhook & _).
      rewrite Heq. unfold ret.
      destruct (Logger.isRedirected (this w)); cbn; exact Hhook.
    + unfold bind at 1, ret.
      destruct (Logger.isRedirected (this w)); reflexivity.
Qed.

End CallerFacts.

(** Seven failures in a row on a fresh default logger: five errors, one
    notice. *)
Lemma caller_failure_reports_witness :
  Logger.callerErrorCount
    (this (snd (lookups (repeat (stack textStackEnv) 7) (freshWorld defaultLogger)))) = 7 /\
  length (stderr (snd (lookups (repeat (stack textStackEnv) 7) (freshWorld defaultLogger)))) = 6.
Proof.
  pose proof (proj1 (proj2 (proj2 (caller_failure_reports (H := exampleRuntime))))
                (repeat (stack textStackEnv) 7) (freshWorld defaultLogger)
                ltac:(repeat constructor) eq_refl eq_refl) as [Hcount Herr].
  split; [exact Hcount | rewrite Herr; reflexivity].
Defined.

(** ** [log] *)

Section LogFacts.
Context `{Runtime}.

(** Building the record always succeeds and writes nothing to the output;
    the caller is looked up exactly when it is to be included. *)
Lemma buildEntry_returns (env : Env) (level : string) (message : value) (args : list value)
    (w : World) :
  exists logEntry w',
    buildEntry env level message args w = (Ok logEntry, w') /\
    stdout w' = stdout w /\
    (shouldIncludeCaller (this w) level = true ->
     is_Some (LogEntry.callerFile logEntry) /\ is_Some (LogEntry.callerLine logEntry) /\
     inspections w' = S (inspections w)) /\
    (shouldIncludeCaller (this w) level = false ->
     LogEntry.callerFile logEntry = None /\ LogEntry.callerLine logEntry = None /\ w' = w).
Proof.
  unfold buildEntry, bind at 1, getThis.
  destruct (shouldIncludeCaller (this w) level).
  - unfold bind at 1, bind at 1.
    destruct (getCallerInfo_returns (stack env) w) as (c & w' & Heq & _ & Hout & Hins).
    rewrite Heq. unfold ret. eexists _, _. split; [reflexivity|].
    split; [exact Hout|]. split; [|discriminate].
    intros _. cbn. repeat split; eauto.
  - unfold bind at 1, ret. eexists _, _. split; [reflexivity|].
    split; [reflexivity|]. split; [discriminate|].
    intros _. repeat split.
Qed.

Lemma log_closed (env : Env) (level : string) (message : value) (args : list value)
    (w : World) :
  gateClosed (this w) level = true ->
  log env level message args w = (Ok tt, w).
Proof.
  intros Hgate. unfold log, bind, getThis. rewrite Hgate. reflexivity.
Qed.

Lemma log_open (env : Env) (level : string) (message : value) (args : list value)
    (w : World) :
  gateClosed (this w) level = false ->
  exists line w',
    log env level message args w = (Ok tt, w') /\ stdout w' = stdout w ++ [line].
Proof.
  intros Hgate. unfold log, bind at 1, getThis. rewrite Hgate.
  destruct (buildEntry_returns env level message args w) as (e & w1 & Heq & Hout & _).
  unfold bind. rewrite Heq.
  destruct (Logger.isRedirected (this w)); unfold consoleLog;
    eexists _, _; (split; [reflexivity|]); cbn [stdout]; rewrite Hout; reflexivity.
Qed.

(** C2.  For a call at a level whose rank is above the rank of the current
    level, [log] returns with the logger, both console channels, the
    stack-trace hook and the count of stack captures exactly as they were,
    and no record is built.  For a call at a level whose rank is at most
    the rank of the current level, [log] returns normally with exactly one
    more entry at the end of the output, and a record is built. *)
Theorem log_gate (env : Env) (level : string) (message : value) (args : list value)
    (w : World) (r rc : Z) :
  rank (this w) level = Some r ->
  rank (this w) (Options.level (Logger.options (this w))) = Some rc ->
  ((r > rc)%Z ->
   log env level message args w = (Ok tt, w) /\
   recordOf env level message args w = None) /\
  ((r <= rc)%Z ->
   (exists line w',
      log env level message args w = (Ok tt, w') /\ stdout w' = stdout w ++ [line]) /\
   (exists logEntry, recordOf env level message args w = Some logEntry)).
Proof.
  intros Hr Hrc.
  assert (Hgate : gateClosed (this w) level = (rc <? r)%Z).
  { unfold gateClosed, jsGt. rewrite Hr, Hrc. reflexivity. }
  split; intros Hcmp.
  - assert (Hclosed : gateClosed (this w) level = true)
      by (rewrite Hgate; apply Z.ltb_lt; lia).
    split; [apply log_closed; exact Hclosed|].
    unfold recordOf. rewrite Hclosed. reflexivity.
  - assert (Hopen : gateClosed (this w) level = false)
      by (rewrite Hgate; apply Z.ltb_ge; lia).
    split; [apply log_open; exact Hopen|].
    unfold recordOf. rewrite Hopen.
    destruct (buildEntry_returns env level message args w) as (e & w1 & Heq & _).
    rewrite Heq. eauto.
Qed.

(** Building the record, with what the caller lookup contributes. *)
Lemma buildEntry_caller (env : Env) (level : string) (message : value) (args : list value)
    (w : World) :
  exists logEntry w',
    buildEntry env level message args w = (Ok logEntry, w') /\
    stdout w' = stdout w /\
    (shouldIncludeCaller (this w) level = true ->
     inspections w' = S (inspections w) /\
     exists found w1,
       getCallerInfo (stack env) w = (Ok found, w1) /\
       LogEntry.callerFile logEntry = Some (fst found) /\
       LogEntry.callerLine logEntry = Some (snd found)) /\
    (shouldIncludeCaller (this w) level = false ->
     LogEntry.callerFile logEntry = None /\ LogEntry.callerLine logEntry = None /\ w' = w).
Proof.
  unfold buildEntry, bind at 1, getThis.
  destruct (shouldIncludeCaller (this w) level).
  - unfold bind at 1, bind at 1.
    destruct (getCallerInfo_returns (stack env) w) as (c & w' & Heq & _ & Hout & Hins).
    rewrite Heq. unfold ret. eexists _, _. split; [reflexivity|].
    split; [exact Hout|]. split; [|discriminate].
    intros _. split; [exact Hins|]. exists c, w'. repeat split.
  - unfold bind at 1, ret. eexists _, _. split; [reflexivity|].
    split; [reflexivity|]. split; [discriminate|].
    intros _. repeat split.
Qed.

(** What an emit call that passes the gate does with the record it has
    built. *)
Lemma log_writes_entry (env : Env) (level : string) (message : value) (args : list value)
    (w w1 : World) (logEntry : LogEntry.t) :
  gateClosed (this w) level = false ->
  buildEntry env level message args w = (Ok logEntry, w1) ->
  log env level message args w =
  (Ok tt,
   {| this := this w1;
      prepareStackTrace := prepareStackTrace w1;
      stdout := stdout w1 ++ [consoleArgument (this w) level (render (this w) logEntry)];
      stderr := stderr w1;
      inspections := inspections w1 |}).
Proof.
  intros Hgate Hbuild. unfold log, bind at 1, getThis. rewrite Hgate.
  unfold bind. rewrite Hbuild. unfold consoleArgument.
  destruct (Logger.isRedirected (this w)); reflexivity.
Qed.

(** An emit call that passes the gate, with the record it writes and the
    caller in it. *)
Lemma log_caller (env : Env) (level : string) (message : value) (args : list value)
    (w : World) :
  gateClosed (this w) level = false ->
  exists logEntry w',
    log env level message args w = (Ok tt, w') /\
    recordOf env level message args w = Some logEntry /\
    stdout w' = stdout w ++ [consoleArgument (this w) level (render (this w) logEntry)] /\
    (shouldIncludeCaller (this w) level = true ->
     inspections w' = S (inspections w) /\
     exists found w1,
       getCallerInfo (stack env) w = (Ok found, w1) /\
       LogEntry.callerFile logEntry = Some (fst found) /\
       LogEntry.callerLine logEntry = Some (snd found)) /\
    (shouldIncludeCaller (this w) level = false ->
     LogEntry.callerFile logEntry = None /\ LogEntry.callerLine logEntry = None /\
     inspections w' = inspections w).
Proof.
  intros Hgate.
  destruct (buildEntry_caller env level message args w)
    as (logEntry & w1 & Hbuild & Hout & Hyes & Hno).
  exists logEntry. eexists. split; [exact (log_writes_entry _ _ _ _ _ _ _ Hgate Hbuild)|].
  cbn [stdout inspections]. rewrite Hout.
  split; [unfold recordOf; rewrite Hgate, Hbuild; reflexivity|].
  split; [reflexivity|]. split; [exact Hyes|].
  intros Hinc. destruct (Hno Hinc) as (Hfile & Hline & ->). repeat split; assumption.
Qed.

(** C3.  An emit call that passes the gate hands one record to the selected
    formatter and writes what comes of it: the output grows by exactly the
    rendering of that record, which is the text the formatter returns for
    it.  That record carries the caller's file and line, and they are the
    ones the caller lookup finds on the call's stack, when the rank of the
    call's level is at most the rank of [callerLevel]; it carries neither,
    and the stack is not inspected, when the rank is above.  With the
    built-in ranks and [callerLevel] at [warn], the records that [error]
    and [warn] write carry them and those that [info] and [debug] write do
    not. *)
Theorem caller_attached_iff :
  (forall env level message args w r rcl,
     rank (this w) level = Some r ->
     rank (this w) (Options.callerLevel (Logger.options (this w))) = Some rcl ->
     gateClosed (this w) level = false ->
     exists logEntry w',
       log env level message args w = (Ok tt, w') /\
       recordOf env level message args w = Some logEntry /\
       stdout w' = stdout w ++ [consoleArgument (this w) level (render (this w) logEntry)] /\
       (forall (formatter : Formatter) text,
          Logger.formatters (this w) !! Options.format (Logger.options (this w)) =
            Some formatter ->
          formatter logEntry = Ok (VStr text) ->
          render (this w) logEntry = VStr text) /\
       ((is_Some (LogEntry.callerFile logEntry) /\ is_Some (LogEntry.callerLine logEntry)) <->
        (r <= rcl)%Z) /\
       ((LogEntry.callerFile logEntry = None /\ LogEntry.callerLine logEntry = None) <->
        (r > rcl)%Z) /\
       ((r <= rcl)%Z ->
        exists found w1,
          getCallerInfo (stack env) w = (Ok found, w1) /\
          LogEntry.callerFile logEntry = Some (fst found) /\
          LogEntry.callerLine logEntry = Some (snd found)) /\
       inspections w' = (if (r <=? rcl)%Z then S (inspections w) else inspections w)) /\
  (forall env message args w call name,
     Options.levels (Logger.options (this w)) = defaultLevels ->
     Options.callerLevel (Logger.options (this w)) = "warn" ->
     In (call, name) emitters ->
     gateClosed (this w) name = false ->
     exists logEntry w',
       call env message args w = (Ok tt, w') /\
       recordOf env name message args w = Some logEntry /\
       stdout w' = stdout w ++ [consoleArgument (this w) name (render (this w) logEntry)] /\
       (name = "error" \/ name = "warn" ->
        is_Some (LogEntry.callerFile logEntry) /\ is_Some (LogEntry.callerLine logEntry)) /\
       (name = "info" \/ name = "debug" ->
        LogEntry.callerFile logEntry = None /\ LogEntry.callerLine logEntry = None)).
Proof.
  split.
  - intros env level message args w r rcl Hr Hrcl Hgate.
    destruct (log_caller env level message args w Hgate)
      as (logEntry & w' & Hlog & Hrec & Hout & Hyes & Hno).
    exists logEntry, w'.
    split; [exact Hlog|]. split; [exact Hrec|]. split; [exact Hout|].
    split.
    { intros formatter text Hsel Hret. unfold render, firstAttempt.
      rewrite Hsel. cbn [callFormatter]. rewrite Hret. reflexivity. }
    assert (Hinc : shouldIncludeCaller (this w) level = (r <=? rcl)%Z).
    { unfold shouldIncludeCaller, jsLe. rewrite Hr, Hrcl. reflexivity. }
    rewrite Hinc in Hyes, Hno.
    destruct (Z.leb_spec r rcl) as [Hle|Hgt].
    + destruct (Hyes eq_refl) as (Hins & found & w1 & Hfound & Hfile & Hline).
      rewrite Hfile, Hline.
      split; [split; [intros _; exact Hle | intros _; split; eauto]|].
      split; [split; [intros [Hnone _]; discriminate | lia]|].
      split; [intros _; exists found, w1; repeat split; exact Hfound | exact Hins].
    + destruct (Hno eq_refl) as (Hfile & Hline & Hins).
      rewrite Hfile, Hline.
      split; [split; [intros [[f Hsome] _]; discriminate | lia]|].
      split; [split; [intros _; lia | intros _; split; reflexivity]|].
      split; [lia | exact Hins].
  - intros env message args w call name Hlevels Hcaller Hin Hgate.
    destruct (log_caller env name message args w Hgate)
      as (logEntry & w' & Hlog & Hrec & Hout & Hyes & Hno).
    exists logEntry, w'.
    assert (Hcall : call env message args w = log env name message args w).
    { unfold emitters in Hin. cbn [In] in Hin.
      destruct Hin as [Hin|[Hin|[Hin|[Hin|[]]]]]; injection Hin as <- <-; reflexivity. }
    rewrite Hcall.
    split; [exact Hlog|]. split; [exact Hrec|]. split; [exact Hout|].
    unfold shouldIncludeCaller, rank in Hyes, Hno. rewrite Hlevels, Hcaller in Hyes, Hno.
    split; intros [-> | ->].
    + destruct (Hyes eq_refl) as (_ & found & w1 & _ & -> & ->). split; eauto.
    + destruct (Hyes eq_refl) as (_ & found & w1 & _ & -> & ->). split; eauto.
    + destruct (Hno eq_refl) as (? & ? & _). split; assumption.
    + destruct (Hno eq_refl) as (? & ? & _). split; assumption.
Qed.

(** ** The level accessor *)

(** C9.  Called with no argument, [level] returns the current level name
    and changes nothing.  Called with a name that is not a key of the merged
    level table, it throws the error [Invalid log level: <name>] and changes
    nothing.  Called with a name that is a key of the table, it makes that
    name the current level, changes nothing else, and returns the name. *)
Theorem level_accessor (w : World) :
  level [] w = (Ok (Options.level (Logger.options (this w))), w) /\
  (forall name,
     Options.levels (Logger.options (this w)) !! name = None ->
     level [Some name] w = (Throw (JsError ("Invalid log level: " +:+ name)), w)) /\
  (forall name r,
     Options.levels (Logger.options (this w)) !! name = Some r ->
     level [Some name] w =
     (Ok name,
      {| this := withLevel name (this w);
         prepareStackTrace := prepareStackTrace w;
         stdout := stdout w;
         stderr := stderr w;
         inspections := inspections w |}) /\
     Options.level (Logger.options (withLevel name (this w))) = name /\
     Options.levels (Logger.options (withLevel name (this w))) =
       Options.levels (Logger.options (this w))).
Proof.
  split; [reflexivity|]. split.
  - intros name Hnone. unfold level, bind, getThis. rewrite Hnone.
    rewrite bool_decide_eq_false_2 by (intros [x Hx]; discriminate). reflexivity.
  - intros name r Hsome. unfold level, bind, getThis. rewrite Hsome.
    rewrite bool_decide_eq_true_2 by eauto. repeat split.
Qed.

(** [setLevel] does what [level] does: the same result and the same
    state, for the same arguments. *)
Lemma setLevel_level (arguments : list (option string)) (w : World) :
  setLevel arguments w = level arguments w.
Proof. destruct arguments as [|[name|] rest]; reflexivity. Qed.

(** ** The fail-safe rendering *)

Lemma replaceChar_same (c : ascii) (s : string) :
  replaceChar c (String c EmptyString) s = s.
Proof.
  induction s as [|x s IH]; [reflexivity|]. cbn [replaceChar].
  destruct (Ascii.eqb_spec x c) as [->|_]; rewrite IH; reflexivity.
Qed.

(** When the selected formatter fails and the JSON fallback throws as well,
    the output is the minimal text, with the message as it stands. *)
Lemma render_minimal (lg : Logger.t) (logEntry : LogEntry.t) (error e : exn) :
  firstAttempt lg logEntry = Throw error ->
  callFormatter (Logger.formatters lg !! "json") "this.formatters.json"
    (withFormatterError ("Formatter failed: " +:+ errorMessage error) logEntry) = Throw e ->
  render lg logEntry =
  VStr ("{" +:+ quoted "level" +:+ ":" +:+ quoted (LogEntry.level logEntry) +:+ "," +:+
        quoted "msg" +:+ ":" +:+ quoted (LogEntry.msg logEntry) +:+ "," +:+
        quoted "formatterError" +:+ ":" +:+
        quoted ("Formatter failed: " +:+ errorMessage error) +:+ "}").
Proof.
  intros Hfirst Hjson. unfold render. rewrite Hfirst, Hjson.
  unfold minimalOutput. rewrite replaceChar_same. reflexivity.
Qed.

End LogFacts.

(** On the default logger, whose current level is [info]: a [debug] call
    is discarded, an [info] call is written once. *)
Lemma log_gate_witness :
  (log sampleEnv "debug" (VStr "x") [] (freshWorld defaultLogger) =
     (Ok tt, freshWorld defaultLogger) /\
   recordOf sampleEnv "debug" (VStr "x") [] (freshWorld defaultLogger) = None) /\
  ((exists line w',
      log sampleEnv "info" (VStr "x") [] (freshWorld defaultLogger) = (Ok tt, w') /\
      stdout w' = stdout (freshWorld defaultLogger) ++ [line]) /\
   (exists logEntry,
      recordOf sampleEnv "info" (VStr "x") [] (freshWorld defaultLogger) = Some logEntry)).
Proof.
  split.
  - exact (proj1 (log_gate (H := exampleRuntime) sampleEnv "debug" (VStr "x") []
                    (freshWorld defaultLogger) 3 2 eq_refl eq_refl) ltac:(lia)).
  - exact (proj2 (log_gate (H := exampleRuntime) sampleEnv "info" (VStr "x") []
                    (freshWorld defaultLogger) 2 2 eq_refl eq_refl) ltac:(lia)).
Defined.

(** [logger.warn("disk %s", "full")] on the default logger. *)
Lemma caller_attached_iff_witness :
  exists logEntry w',
    warn sampleEnv (VStr "disk %s") [VStr "full"] (freshWorld defaultLogger) = (Ok tt, w') /\
    recordOf sampleEnv "warn" (VStr "disk %s") [VStr "full"] (freshWorld defaultLogger) =
      Some logEntry /\
    stdout w' = [render defaultLogger logEntry] /\
    is_Some (LogEntry.callerFile logEntry) /\ is_Some (LogEntry.callerLine logEntry).
Proof.
  destruct (proj2 (caller_attached_iff (H := exampleRuntime))
              sampleEnv (VStr "disk %s") [VStr "full"] (freshWorld defaultLogger)
              warn "warn" eq_refl eq_refl (or_intror (or_introl eq_refl)) eq_refl)
    as (logEntry & w' & Hcall & Hrecord & Hout & Hyes & _).
  exists logEntry, w'.
  split; [exact Hcall|]. split; [exact Hrecord|]. split; [exact Hout|].
  exact (Hyes (or_intror eq_refl)).
Defined.

(** [logger.level("custom")] and [logger.level("debug")] on the default
    logger. *)
Lemma level_accessor_witness :
  level [Some "custom"] (freshWorld defaultLogger) =
    (Throw (JsError "Invalid log level: custom"), freshWorld defaultLogger) /\
  fst (level [Some "debug"] (freshWorld defaultLogger)) = Ok "debug".
Proof.
  split.
  - exact (proj1 (proj2 (level_accessor (freshWorld defaultLogger))) "custom" eq_refl).
  - exact (f_equal fst
             (proj1 (proj2 (proj2 (level_accessor (freshWorld defaultLogger)))
                           "debug" 3%Z eq_refl))).
Defined.

(** C1, at [logger.info('say "hi"')] after [logger.formatters.json] has
    been replaced by a function that throws: the call writes the minimal
    text once, with the level, the message and the diagnostic field, and
    the quotes of the message are in it as they were, not escaped. *)
Theorem final_fallback_keeps_quotes :
  info sampleEnv (VStr sayHi) [] (freshWorld brokenJsonLogger) =
  (Ok tt,
   {| this := brokenJsonLogger;
      prepareStackTrace := HookUnset;
      stdout :=
        [VStr ("{" +:+ quoted "level" +:+ ":" +:+ quoted "info" +:+ "," +:+
               quoted "msg" +:+ ":" +:+ quoted sayHi +:+ "," +:+
               quoted "formatterError" +:+ ":" +:+
               quoted "Formatter failed: JSON formatter is broken" +:+ "}")];
      stderr := [];
      inspections := 0 |}) /\
  escapeQuotes sayHi =
    "say " +:+ String backslash (quoted ("hi" +:+ String backslash EmptyString)) /\
  quoted sayHi <> quoted (escapeQuotes sayHi).
Proof.
  split; [|split].
  - unfold info, log, bind at 1, getThis.
    change (gateClosed (this (freshWorld brokenJsonLogger)) "info") with false.
    cbv iota.
    destruct (buildEntry_returns sampleEnv "info" (VStr sayHi) [] (freshWorld brokenJsonLogger))
      as (e & w1 & Heq & _ & _ & Hno).
    destruct (Hno eq_refl) as (_ & _ & ->).
    unfold bind. rewrite Heq.
    assert (He : e = {| LogEntry.level := "info"; LogEntry.levelNumber := Some 2%Z;
                        LogEntry.time := "2024-01-15 10:30"; LogEntry.pid := 1234;
                        LogEntry.hostname := "localhost"; LogEntry.msg := sayHi;
                        LogEntry.callerFile := None; LogEntry.callerLine := None;
                        LogEntry.more := [] |}).
    { assert (Hsome : Some e = Some {| LogEntry.level := "info"; LogEntry.levelNumber := Some 2%Z;
                        LogEntry.time := "2024-01-15 10:30"; LogEntry.pid := 1234;
                        LogEntry.hostname := "localhost"; LogEntry.msg := sayHi;
                        LogEntry.callerFile := None; LogEntry.callerLine := None;
                        LogEntry.more := [] |}).
      { transitivity (recordOf sampleEnv "info" (VStr sayHi) [] (freshWorld brokenJsonLogger)).
        - unfold recordOf.
          change (gateClosed (this (freshWorld brokenJsonLogger)) "info") with false.
          cbv iota. rewrite Heq. reflexivity.
        - vm_compute. reflexivity. }
      congruence. }
    subst e.
    rewrite (render_minimal _ _ (JsError "JSON formatter is broken")
               (JsError "JSON formatter is broken")) by reflexivity.
    reflexivity.
  - vm_compute. reflexivity.
  - vm_compute. congruence.
Qed.

(** ** Further properties of the formatting pipeline *)

Section PipelineFacts.
Context `{Runtime}.

(** X17.  While the current level is [silent] and the ranks are the built-in
    ones, the four emitting methods write nothing and change nothing. *)
Theorem silent_suppresses (env : Env) (message : value) (args : list value) (w : World) :
  Options.level (Logger.options (this w)) = "silent" ->
  Options.levels (Logger.options (this w)) = defaultLevels ->
  error env message args w = (Ok tt, w) /\
  warn env message args w = (Ok tt, w) /\
  info env message args w = (Ok tt, w) /\
  debug env message args w = (Ok tt, w).
Proof.
  intros Hlevel Hlevels.
  repeat split; apply log_closed; unfold gateClosed, rank;
    rewrite Hlevel, Hlevels; reflexivity.
Qed.

(** The JSON formatter on a record that [log] has built and extended with
    one text field. *)
Lemma jsonFormatter_extended (logEntry : LogEntry.t) (key text : string) :
  LogEntry.more logEntry = [(key, VStr text)] ->
  jsonFormatter logEntry =
  Ok (VStr (objectText (declaredMembers logEntry ++ [member key (jsonQuote text)]))).
Proof.
  intros Hmore. unfold jsonFormatter, entryProps. rewrite Hmore.
  destruct (LogEntry.levelNumber logEntry) eqn:Hnumber,
    (LogEntry.callerFile logEntry) eqn:Hfile,
    (LogEntry.callerLine logEntry) eqn:Hline;
    unfold declaredMembers; rewrite Hnumber, Hfile, Hline; reflexivity.
Qed.

Lemma render_fallback_text (lg : Logger.t) (logEntry : LogEntry.t) (error : exn) :
  firstAttempt lg logEntry = Throw error ->
  Logger.formatters lg !! "json" = Some jsonFormatter ->
  LogEntry.more logEntry = [] ->
  render lg logEntry =
  VStr (objectText
          (declaredMembers logEntry ++
           [member "formatterError"
              (jsonQuote ("Formatter failed: " +:+ errorMessage error))])).
Proof.
  intros Hfirst Hjson Hmore. unfold render. rewrite Hfirst, Hjson. cbn [callFormatter].
  rewrite (jsonFormatter_extended
             (withFormatterError ("Formatter failed: " +:+ errorMessage error) logEntry)
             "formatterError" ("Formatter failed: " +:+ errorMessage error))
    by (cbn [withFormatterError LogEntry.more]; rewrite Hmore; reflexivity).
  reflexivity.
Qed.

(** X7.  When the selected formatter throws, having left the record as
    [log] built it, and the JSON formatter is the built-in one, the output
    is the JSON line of the record with one more member at its end:
    [formatterError], whose value is [Formatter failed: ] followed by the
    message of the error ([Unknown error] when what was thrown is not an
    [Error]). *)
Theorem render_falls_back_to_json (lg : Logger.t) (logEntry : LogEntry.t)
    (formatter : Formatter) (e : exn) :
  Logger.formatters lg !! Options.format (Logger.options lg) = Some formatter ->
  formatter logEntry = Throw e ->
  Logger.formatters lg !! "json" = Some jsonFormatter ->
  LogEntry.more logEntry = [] ->
  render lg logEntry =
  VStr (objectText
          (declaredMembers logEntry ++
           [member "formatterError"
              (jsonQuote ("Formatter failed: " +:+
                          match e with
                          | JsError message => message
                          | JsThrown _ => "Unknown error"
                          end))])).
Proof.
  intros Hsel Hthrow Hjson Hmore.
  rewrite (render_fallback_text lg logEntry e); [destruct e; reflexivity | | exact Hjson | exact Hmore].
  unfold firstAttempt. rewrite Hsel. cbn [callFormatter]. rewrite Hthrow. reflexivity.
Qed.

End PipelineFacts.

Lemma silent_suppresses_witness :
  error sampleEnv (VStr "x") [] (freshWorld (withLevel "silent" defaultLogger)) =
    (Ok tt, freshWorld (withLevel "silent" defaultLogger)) /\
  warn sampleEnv (VStr "x") [] (freshWorld (withLevel "silent" defaultLogger)) =
    (Ok tt, freshWorld (withLevel "silent" defaultLogger)) /\
  info sampleEnv (VStr "x") [] (freshWorld (withLevel "silent" defaultLogger)) =
    (Ok tt, freshWorld (withLevel "silent" defaultLogger)) /\
  debug sampleEnv (VStr "x") [] (freshWorld (withLevel "silent" defaultLogger)) =
    (Ok tt, freshWorld (withLevel "silent" defaultLogger)).
Proof.
  exact (silent_suppresses (H := exampleRuntime) sampleEnv (VStr "x") []
           (freshWorld (withLevel "silent" defaultLogger)) eq_refl eq_refl).
Defined.

Lemma render_falls_back_to_json_witness :
  render brokenSimpleLogger sampleInfoEntry =
  VStr ("{" +:+ quoted "level" +:+ ":" +:+ quoted "info" +:+ "," +:+
        quoted "levelNumber" +:+ ":2," +:+
        quoted "time" +:+ ":" +:+ quoted "2024-01-15 10:30" +:+ "," +:+
        quoted "pid" +:+ ":1234," +:+
        quoted "hostname" +:+ ":" +:+ quoted "localhost" +:+ "," +:+
        quoted "msg" +:+ ":" +:+ quoted "started" +:+ "," +:+
        quoted "formatterError" +:+ ":" +:+
        quoted "Formatter failed: JSON formatter is broken" +:+ "}").
Proof.
  exact (render_falls_back_to_json (H := exampleRuntime) brokenSimpleLogger sampleInfoEntry
           brokenFormatter (JsError "JSON formatter is broken") eq_refl eq_refl eq_refl
           eq_refl).
Defined.

(** ** More on the interpolator *)

Section InterpolatorMore.
Context `{Runtime}.

Lemma countSpecifiers_step (c d : ascii) (rest : string) :
  countSpecifiers (String c (String d rest)) =
  if Ascii.eqb c "%" && isSpecifier d then
    (if Ascii.eqb d "%" then 0 else 1) + countSpecifiers rest
  else countSpecifiers (String d rest).
Proof. reflexivity. Qed.

Lemma replacer_counter (args : list value) (i : nat) (d : ascii) :
  snd (replacer args i d) =
  if Ascii.eqb d "%" then i else if (length args <=? i)%nat then i else S i.
Proof.
  unfold replacer. destruct (Ascii.eqb d "%"); [reflexivity|].
  destruct (length args <=? i)%nat; reflexivity.
Qed.

(** Where the argument counter stands after the scan. *)
Lemma replaceSpecifiers_counter (args : list value) (template : string) :
  forall i, i <= length args ->
    snd (replaceSpecifiers args i template) =
    Nat.min (i + countSpecifiers template) (length args).
Proof.
  induction template as [|c|c d s IHs IHd] using string_pair_ind; intros i Hi.
  - cbn. lia.
  - cbn. lia.
  - rewrite replaceSpecifiers_step, countSpecifiers_step.
    destruct (Ascii.eqb c "%" && isSpecifier d).
    + cbn [snd]. rewrite replacer_counter.
      destruct (Ascii.eqb d "%").
      * rewrite IHs by exact Hi. reflexivity.
      * destruct (Nat.leb_spec (length args) i) as [Hle|Hlt].
        -- rewrite IHs by exact Hi. lia.
        -- rewrite IHs by lia. lia.
    + cbn [snd]. apply IHd. exact Hi.
Qed.

(** A specifier other than [%%] that finds the counter on an argument
    converts that argument and moves the counter by one. *)
Lemma replacer_given (args : list value) (i : nat) (d : ascii) (a : value) :
  d <> "%"%char -> args !! i = Some a ->
  replacer args i d = (conversion d a, S i).
Proof.
  intros Hd Ha. unfold replacer, conversion.
  destruct (Ascii.eqb_spec d "%") as [->|_]; [contradiction|].
  pose proof (lookup_lt_Some _ _ _ Ha) as Hlt.
  destruct (Nat.leb_spec (length args) i) as [Hle|_]; [lia|].
  rewrite Ha. reflexivity.
Qed.

(** X1.  [format] hands its arguments to the specifiers of the template
    from left to right, one to each specifier other than [%%], until
    either runs out.  The specifier that has [k] such specifiers before it
    is replaced by the conversion of the argument at index [k], the text
    before it being scanned from the first argument on and the text after
    it from the argument at index [k + 1] on; when there is no argument at
    index [k] it is left as it is written.  The number of arguments
    consumed is the smaller of the number of such specifiers and the
    number of arguments.  When the specifiers are at least as many as the
    arguments nothing is appended; otherwise the arguments past the
    consumed ones, and only they, are appended in their display form,
    joined by single spaces. *)
Theorem format_consumes_min (args : list value) :
  (forall before d after a,
     regexCut (before ++ Match d :: after) = true ->
     d <> "%"%char ->
     args !! countSpecifiers (templateOf before) = Some a ->
     replaceSpecifiers args 0 (templateOf (before ++ Match d :: after)) =
     (fst (replaceSpecifiers args 0 (templateOf before)) +:+ conversion d a +:+
      fst (replaceSpecifiers args (S (countSpecifiers (templateOf before))) (templateOf after)),
      snd (replaceSpecifiers args (S (countSpecifiers (templateOf before)))
             (templateOf after)))) /\
  (forall before d after,
     regexCut (before ++ Match d :: after) = true ->
     d <> "%"%char ->
     args !! countSpecifiers (templateOf before) = None ->
     replaceSpecifiers args 0 (templateOf (before ++ Match d :: after)) =
     (fst (replaceSpecifiers args 0 (templateOf before)) +:+
      String "%" (String d (fst (replaceSpecifiers args (length args) (templateOf after)))),
      snd (replaceSpecifiers args (length args) (templateOf after)))) /\
  (forall template,
     snd (replaceSpecifiers args 0 template) =
       Nat.min (countSpecifiers template) (length args)) /\
  (forall template,
     length args <= countSpecifiers template ->
     format (VStr template) args = fst (replaceSpecifiers args 0 template)) /\
  (forall template,
     countSpecifiers template < length args ->
     format (VStr template) args =
     fst (replaceSpecifiers args 0 template) +:+ " " +:+
     String.concat " " (map displayForm (drop (countSpecifiers template) args))).
Proof.
  assert (Hcount : forall template,
             snd (replaceSpecifiers args 0 template) =
             Nat.min (countSpecifiers template) (length args))
    by (intros template; exact (replaceSpecifiers_counter args template 0 (Nat.le_0_l _))).
  repeat apply conj.
  - intros before d after a Hcut Hd Ha.
    pose proof (lookup_lt_Some _ _ _ Ha) as Hlt.
    rewrite (replaceSpecifiers_around _ _ _ _ Hcut). cbv zeta.
    rewrite Hcount, Nat.min_l by lia.
    rewrite (replacer_given _ _ _ _ Hd Ha). reflexivity.
  - intros before d after Hcut Hd Hnone.
    apply lookup_ge_None in Hnone.
    rewrite (replaceSpecifiers_around _ _ _ _ Hcut). cbv zeta.
    rewrite Hcount, Nat.min_r by lia.
    rewrite replacer_exhausted by (assumption || lia). cbn [fst snd].
    rewrite !append_cons. reflexivity.
  - intros template. exact (Hcount template).
  - intros template Hcmp. unfold format. specialize (Hcount template).
    destruct (replaceSpecifiers args 0 template) as [str j].
    cbn [fst snd] in *. subst j.
    rewrite Nat.min_r by exact Hcmp. rewrite drop_all. reflexivity.
  - intros template Hcmp. unfold format. specialize (Hcount template).
    destruct (replaceSpecifiers args 0 template) as [str j].
    cbn [fst snd] in *. subst j.
    rewrite Nat.min_l by lia.
    destruct (drop (countSpecifiers template) args) as [|a rest] eqn:Hdrop.
    + apply (f_equal length) in Hdrop. rewrite length_drop in Hdrop. cbn in Hdrop. lia.
    + cbn [length Nat.ltb Nat.leb].
      rewrite (map_ext _ _ remainingForm_display). reflexivity.
Qed.

Lemma replaceSpecifiers_literal (args : list value) (template : string) :
  occurs "%" template = false ->
  forall i, replaceSpecifiers args i template = (template, i).
Proof.
  induction template as [|c|c d s IHs IHd] using string_pair_ind; intros Hno i.
  - reflexivity.
  - reflexivity.
  - rewrite replaceSpecifiers_step.
    cbn [occurs] in Hno. apply orb_false_iff in Hno as [Hc Hrest].
    rewrite Hc. cbn [andb]. rewrite (IHd Hrest). reflexivity.
Qed.

Lemma countSpecifiers_literal (template : string) :
  occurs "%" template = false -> countSpecifiers template = 0.
Proof.
  induction template as [|c|c d s IHs IHd] using string_pair_ind; intros Hno.
  - reflexivity.
  - reflexivity.
  - rewrite countSpecifiers_step.
    cbn [occurs] in Hno. apply orb_false_iff in Hno as [Hc Hrest].
    rewrite Hc. cbn [andb]. exact (IHd Hrest).
Qed.

(** X2.  A template that holds no [%] comes out of [format] as it went in;
    extra arguments, when there are any, all follow it, each in its display
    form and each preceded by a single space. *)
Theorem format_without_percent (template : string) (args : list value) :
  occurs "%" template = false ->
  format (VStr template) [] = template /\
  (forall a rest,
     args = a :: rest ->
     format (VStr template) args =
     template +:+ " " +:+ String.concat " " (map displayForm args)).
Proof.
  intros Hno. split.
  - unfold format. rewrite (replaceSpecifiers_literal [] template Hno). reflexivity.
  - intros a rest ->. unfold format.
    rewrite (replaceSpecifiers_literal (a :: rest) template Hno).
    cbn [drop length Nat.ltb Nat.leb].
    rewrite (map_ext _ _ remainingForm_display). reflexivity.
Qed.

End InterpolatorMore.

Lemma format_consumes_min_witness :
  replaceSpecifiers [VStr "a"; VStr "b"; VStr "c"; VStr "d"] 0 "%s-%s-%s and" =
    ("a-b-c and", 3) /\
  format (VStr "%s-%s-%s and") [VStr "a"; VStr "b"; VStr "c"; VStr "d"] = "a-b-c and d".
Proof.
  split.
  - exact (proj1 (format_consumes_min (H := exampleRuntime)
                    [VStr "a"; VStr "b"; VStr "c"; VStr "d"])
             [Match "s"; Literal "-"] "s"%char
             (Literal "-" :: Match "s" :: literals " and") (VStr "b")
             eq_refl ltac:(discriminate) eq_refl).
  - exact (proj2 (proj2 (proj2 (proj2 (format_consumes_min (H := exampleRuntime)
                                         [VStr "a"; VStr "b"; VStr "c"; VStr "d"]))))
             "%s-%s-%s and" ltac:(vm_compute; lia)).
Defined.

Lemma format_without_percent_witness :
  format (VStr "Message") [VStr "arg1"; VStr "arg2"; num 123] = "Message arg1 arg2 123".
Proof.
  exact (proj2 (format_without_percent (H := exampleRuntime) "Message"
                  [VStr "arg1"; VStr "arg2"; num 123] eq_refl)
           (VStr "arg1") [VStr "arg2"; num 123] eq_refl).
Defined.

(** ** Serialisation failures *)

Section CycleFacts.
Context `{Runtime}.

Lemma append_nil_r (s : string) : s +:+ EmptyString = s.
Proof. induction s as [|c s IH]; [reflexivity|]. rewrite append_cons, IH. reflexivity. Qed.

Lemma collect_elements (elems : list value) :
  Forall stringifyOutcome elems ->
  (existsb cyclic elems = true ->
   collect (map stringify elems) = Throw (JsError circularMessage)) /\
  (existsb cyclic elems = false -> exists items, collect (map stringify elems) = Ok items).
Proof.
  induction 1 as [|x rest [Hyes Hno] _ [IHyes IHno]]; cbn [existsb map collect].
  - split; [discriminate | eauto].
  - destruct (cyclic x).
    + rewrite (Hyes eq_refl). split; [reflexivity | discriminate].
    + destruct (Hno eq_refl) as [o ->]. cbn [orb]. split.
      * intros Hrest. rewrite (IHyes Hrest). reflexivity.
      * intros Hrest. destruct (IHno Hrest) as [items ->]. eauto.
Qed.

Lemma collect_members (props : list (string * value)) :
  Forall (fun kv => stringifyOutcome (snd kv)) props ->
  let member := fun kv : string * value =>
                  match stringify (snd kv) with
                  | Ok o => Ok (fst kv, o)
                  | Throw e => Throw e
                  end in
  (existsb (fun kv => cyclic (snd kv)) props = true ->
   collect (map member props) = Throw (JsError circularMessage)) /\
  (existsb (fun kv => cyclic (snd kv)) props = false ->
   exists members, collect (map member props) = Ok members).
Proof.
  intros Hall member.
  induction Hall as [|kv rest [Hyes Hno] _ [IHyes IHno]]; cbn [existsb map collect].
  - split; [discriminate | eauto].
  - unfold member at 1 3. destruct (cyclic (snd kv)).
    + rewrite (Hyes eq_refl). split; [reflexivity | discriminate].
    + destruct (Hno eq_refl) as [o ->]. cbn [orb]. split.
      * intros Hrest. rewrite (IHyes Hrest). reflexivity.
      * intros Hrest. destruct (IHno Hrest) as [members ->]. eauto.
Qed.

Lemma stringify_outcome (v : value) : stringifyOutcome v.
Proof.
  induction v as [| |b|n|s|elems IH|props IH|props key] using value_induction;
    try (split; [discriminate | cbn; eauto]).
  - destruct (collect_elements elems IH) as [Hyes Hno]. split; intros Hc.
    + cbn [cyclic] in Hc. cbn [stringify]. rewrite (Hyes Hc). reflexivity.
    + cbn [cyclic] in Hc. cbn [stringify]. destruct (Hno Hc) as [items ->]. eauto.
  - destruct (collect_members props IH) as [Hyes Hno]. split; intros Hc.
    + cbn [cyclic] in Hc. cbn [stringify]. rewrite (Hyes Hc). reflexivity.
    + cbn [cyclic] in Hc. cbn [stringify]. destruct (Hno Hc) as [members ->]. eauto.
  - split; [reflexivity | discriminate].
Qed.

(** A character that is not [%] is copied by the scan. *)
Lemma replaceSpecifiers_skip (args : list value) (i : nat) (c : ascii) (rest : string) :
  Ascii.eqb c "%" = false ->
  replaceSpecifiers args i (String c rest) =
  (String c (fst (replaceSpecifiers args i rest)), snd (replaceSpecifiers args i rest)).
Proof.
  intros Hc. destruct rest as [|d rest]; [reflexivity|].
  rewrite replaceSpecifiers_step, Hc. reflexivity.
Qed.

Lemma replaceSpecifiers_prefix (args : list value) (pre rest : string) :
  occurs "%" pre = false ->
  forall i,
    replaceSpecifiers args i (pre +:+ rest) =
    (pre +:+ fst (replaceSpecifiers args i rest), snd (replaceSpecifiers args i rest)).
Proof.
  induction pre as [|c pre IH]; intros Hno i.
  - change (EmptyString +:+ rest) with rest.
    destruct (replaceSpecifiers args i rest); reflexivity.
  - cbn [occurs] in Hno. apply orb_false_iff in Hno as [Hc Hpre].
    rewrite !append_cons, replaceSpecifiers_skip by exact Hc.
    rewrite (IH Hpre). reflexivity.
Qed.

(** X3.  [format] contains the failures of [JSON.stringify].  Whenever
    the serialisation of the argument throws, for whatever reason, a [%j]
    becomes [[Circular]] with the literal text around it kept, and an
    argument of type [object] handed over as the template is rendered as
    [[object Object]]; whenever the serialisation returns, [%j] gives its
    text ([undefined] when it has none).  A value that holds, at some
    depth, an object that has itself as a property is one on which the
    serialisation throws. *)
Theorem format_contains_json_failure (v : value) :
  (forall e,
     stringify v = Throw e ->
     (forall pre post,
        occurs "%" pre = false -> occurs "%" post = false ->
        format (VStr (pre +:+ "%j" +:+ post)) [v] = pre +:+ "[Circular]" +:+ post) /\
     (typeof v = "object" -> format v [] = "[object Object]")) /\
  (forall o,
     stringify v = Ok o ->
     forall pre post,
       occurs "%" pre = false -> occurs "%" post = false ->
       format (VStr (pre +:+ "%j" +:+ post)) [v] = pre +:+ default "undefined" o +:+ post) /\
  (cyclic v = true -> stringify v = Throw (JsError circularMessage)).
Proof.
  assert (Hformat : forall pre post,
             occurs "%" pre = false -> occurs "%" post = false ->
             format (VStr (pre +:+ "%j" +:+ post)) [v] = pre +:+ jsonSpecifier v +:+ post).
  { intros pre post Hpre Hpost. unfold format.
    rewrite (replaceSpecifiers_prefix [v] pre _ Hpre).
    change ("%j" +:+ post) with (String "%" (String "j" post)).
    rewrite replaceSpecifiers_match by reflexivity.
    change (replacer [v] 0 "j") with (jsonSpecifier v, 1).
    cbn [fst snd]. rewrite (replaceSpecifiers_literal [v] post Hpost).
    reflexivity. }
  repeat apply conj.
  - intros e Hthrow. split.
    + intros pre post Hpre Hpost. rewrite (Hformat pre post Hpre Hpost).
      unfold jsonSpecifier. rewrite Hthrow. reflexivity.
    + intros Hobject.
      destruct v; try discriminate;
        unfold format; cbn [map String.concat]; unfold plainJoinForm;
        change (String.eqb (typeof _) "object") with true; cbv iota;
        rewrite Hthrow; reflexivity.
  - intros o Ho pre post Hpre Hpost. rewrite (Hformat pre post Hpre Hpost).
    unfold jsonSpecifier. rewrite Ho. destruct o; reflexivity.
  - exact (proj1 (stringify_outcome v)).
Qed.

Lemma entryProps_cyclic (logEntry : LogEntry.t) :
  existsb (fun kv => cyclic (snd kv)) (entryProps logEntry) =
  existsb (fun kv => cyclic (snd kv)) (LogEntry.more logEntry).
Proof.
  unfold entryProps.
  destruct (LogEntry.levelNumber logEntry), (LogEntry.callerFile logEntry),
    (LogEntry.callerLine logEntry); reflexivity.
Qed.

(** X4.  The JSON line.  For a record with no added field, as [log] builds
    it, [jsonFormatter] returns the object text whose members are, in this
    order, [level], [levelNumber], [time], [pid], [hostname], [msg],
    [callerFile] and [callerLine], a field that is absent having no member.
    Whenever the serialisation of the record throws, for whatever reason,
    [jsonFormatter] still returns a text: that of the same members
    followed by [jsonError] with [JSON stringify failed: ] and the message
    of the error, the added fields being left out.  An added field that
    holds an object that has itself as a property makes the serialisation
    throw. *)
Theorem jsonFormatter_outcomes (logEntry : LogEntry.t) :
  (LogEntry.more logEntry = [] ->
   jsonFormatter logEntry = Ok (VStr (objectText (declaredMembers logEntry)))) /\
  (forall error,
     stringify (VObj (entryProps logEntry)) = Throw error ->
     jsonFormatter logEntry =
     Ok (VStr (objectText
                 (declaredMembers logEntry ++
                  [member "jsonError"
                     (jsonQuote ("JSON stringify failed: " +:+ errorMessage error))])))) /\
  (existsb (fun kv => cyclic (snd kv)) (LogEntry.more logEntry) = true ->
   stringify (VObj (entryProps logEntry)) = Throw (JsError circularMessage)).
Proof.
  repeat apply conj.
  - intros Hmore. unfold jsonFormatter, entryProps. rewrite Hmore.
    destruct (LogEntry.levelNumber logEntry) eqn:Hnumber,
      (LogEntry.callerFile logEntry) eqn:Hfile,
      (LogEntry.callerLine logEntry) eqn:Hline;
      unfold declaredMembers; rewrite Hnumber, Hfile, Hline; reflexivity.
  - intros error Hthrow. unfold jsonFormatter. rewrite Hthrow.
    destruct (LogEntry.levelNumber logEntry) eqn:Hnumber,
      (LogEntry.callerFile logEntry) eqn:Hfile,
      (LogEntry.callerLine logEntry) eqn:Hline;
      unfold declaredMembers; rewrite Hnumber, Hfile, Hline; reflexivity.
  - intros Hmore.
    destruct (stringify_outcome (VObj (entryProps logEntry))) as [Hyes _].
    apply Hyes. cbn [cyclic]. rewrite entryProps_cyclic. exact Hmore.
Qed.

End CycleFacts.

(** The shape of the test-suite: [obj.self = obj], nested in an array. *)
Lemma format_contains_json_failure_witness :
  format (VStr "Circular: %j") [VArr [VSelfRef [("name", VStr "test")] "self"]] =
  "Circular: [Circular]".
Proof.
  exact (proj1 (proj1 (format_contains_json_failure (H := exampleRuntime)
                         (VArr [VSelfRef [("name", VStr "test")] "self"]))
                  (JsError circularMessage) eq_refl)
           "Circular: " EmptyString eq_refl eq_refl).
Defined.

Lemma jsonFormatter_outcomes_witness :
  jsonFormatter sampleInfoEntry =
  Ok (VStr ("{" +:+ quoted "level" +:+ ":" +:+ quoted "info" +:+ "," +:+
            quoted "levelNumber" +:+ ":2," +:+
            quoted "time" +:+ ":" +:+ quoted "2024-01-15 10:30" +:+ "," +:+
            quoted "pid" +:+ ":1234," +:+
            quoted "hostname" +:+ ":" +:+ quoted "localhost" +:+ "," +:+
            quoted "msg" +:+ ":" +:+ quoted "started" +:+ "}")) /\
  jsonFormatter cyclicEntry =
  Ok (VStr (objectText
              (declaredMembers cyclicEntry ++
               [member "jsonError"
                  (jsonQuote "JSON stringify failed: Converting circular structure to JSON")]))).
Proof.
  split.
  - exact (proj1 (jsonFormatter_outcomes (H := exampleRuntime) sampleInfoEntry) eq_refl).
  - exact (proj1 (proj2 (jsonFormatter_outcomes (H := exampleRuntime) cyclicEntry))
             (JsError circularMessage)
             (proj2 (proj2 (jsonFormatter_outcomes (H := exampleRuntime) cyclicEntry))
                eq_refl)).
Defined.

(** ** The simple formatter *)

Section SimpleFormatterFacts.
Context `{Runtime}.

Lemma length_append (a b : string) :
  String.length (a +:+ b) = String.length a + String.length b.
Proof.
  induction a as [|c a IH]; [reflexivity|].
  rewrite append_cons. cbn [String.length]. rewrite IH. reflexivity.
Qed.

Lemma length_spaces (n : nat) : String.length (spaces n) = n.
Proof. induction n as [|n IH]; [reflexivity|]. cbn. rewrite IH. reflexivity. Qed.

Lemma length_toUpperCase (s : string) : String.length (toUpperCase s) = String.length s.
Proof. induction s as [|c s IH]; [reflexivity|]. cbn. rewrite IH. reflexivity. Qed.

(** The level column is five wide, and wider only for a longer name. *)
Lemma level_column_width (name : string) :
  String.length (padEnd 5 (toUpperCase name)) = Nat.max 5 (String.length name).
Proof.
  unfold padEnd. rewrite length_append, length_spaces, length_toUpperCase. lia.
Qed.

Lemma lastSegment_plain (s : string) :
  occurs "/" s = false -> forall acc, lastSegment acc s = acc +:+ s.
Proof.
  induction s as [|c s IH]; intros Hno acc.
  - cbn. rewrite append_nil_r. reflexivity.
  - cbn [occurs] in Hno. apply orb_false_iff in Hno as [Hc Hs].
    cbn [lastSegment]. rewrite Hc, (IH Hs), append_associative. reflexivity.
Qed.

Lemma lastSegment_after_slash (dir base : string) :
  forall acc, lastSegment acc (dir +:+ String "/" base) = lastSegment EmptyString base.
Proof.
  induction dir as [|c dir IH]; intros acc.
  - reflexivity.
  - rewrite append_cons. cbn [lastSegment].
    destruct (Ascii.eqb c "/"); apply IH.
Qed.

(** X5.  A record that carries no caller file, or an empty one, is rendered
    by the simple formatter as [[<time>] [<LEVEL>] <message>], with no
    bracketed file and line; [<LEVEL>] is the level name in upper case,
    padded with spaces to five characters and never cut. *)
Theorem simpleFormatter_without_caller (logEntry : LogEntry.t) :
  (LogEntry.callerFile logEntry = None \/ LogEntry.callerFile logEntry = Some EmptyString ->
   simpleFormatter logEntry =
   Ok (VStr ("[" +:+ LogEntry.time logEntry +:+ "] [" +:+
             padEnd 5 (toUpperCase (LogEntry.level logEntry)) +:+ "] " +:+
             LogEntry.msg logEntry))) /\
  String.length (padEnd 5 (toUpperCase (LogEntry.level logEntry))) =
    Nat.max 5 (String.length (LogEntry.level logEntry)).
Proof.
  split; [|apply level_column_width].
  intros [Hfile|Hfile]; unfold simpleFormatter; rewrite Hfile; reflexivity.
Qed.

(** X6.  A record that carries a caller file is rendered by the simple
    formatter as [[<time>] [<LEVEL>] [<base>:<line>] <message>], where
    [<base>] is what follows the last slash of the file's path (the whole
    path when it has no slash) and [<line>] the text of the caller line. *)
Theorem simpleFormatter_with_caller (logEntry : LogEntry.t) (dir base : string) :
  occurs "/" base = false ->
  LogEntry.callerFile logEntry = Some (dir +:+ String "/" base) \/
  (LogEntry.callerFile logEntry = Some base /\ base <> EmptyString) ->
  simpleFormatter logEntry =
  Ok (VStr ("[" +:+ LogEntry.time logEntry +:+ "] [" +:+
            padEnd 5 (toUpperCase (LogEntry.level logEntry)) +:+ "] [" +:+
            (base +:+ ":" +:+ toStr (optionalNumber (LogEntry.callerLine logEntry))) +:+
            "] " +:+ LogEntry.msg logEntry)).
Proof.
  intros Hbase [Hfile|[Hfile Hne]]; unfold simpleFormatter; rewrite Hfile.
  - assert (Hnonempty : String.eqb (dir +:+ String "/" base) EmptyString = false)
      by (destruct dir; reflexivity).
    rewrite Hnonempty, lastSegment_after_slash, (lastSegment_plain base Hbase).
    reflexivity.
  - destruct (String.eqb_spec base EmptyString) as [Heq|_]; [contradiction|].
    rewrite (lastSegment_plain base Hbase). reflexivity.
Qed.

(** ** More on the fail-safe rendering *)

(** X8.  When the selected formatter returns something that is not a
    string, having left the record as [log] built it, and the JSON
    formatter is the built-in one, the output is the JSON line of the
    record with one more member at its end: [formatterError], whose value
    names the type that was returned. *)
Theorem render_wrong_type (lg : Logger.t) (logEntry : LogEntry.t)
    (formatter : Formatter) (v : value) :
  Logger.formatters lg !! Options.format (Logger.options lg) = Some formatter ->
  formatter logEntry = Ok v ->
  typeof v <> "string" ->
  Logger.formatters lg !! "json" = Some jsonFormatter ->
  LogEntry.more logEntry = [] ->
  render lg logEntry =
  VStr (objectText
          (declaredMembers logEntry ++
           [member "formatterError"
              (jsonQuote ("Formatter failed: Formatter returned " +:+ typeof v +:+
                          " instead of string"))])).
Proof.
  intros Hsel Hret Htype Hjson Hmore.
  rewrite (render_fallback_text lg logEntry
             (JsError ("Formatter returned " +:+ typeof v +:+ " instead of string")));
    [reflexivity | | exact Hjson | exact Hmore].
  unfold firstAttempt. rewrite Hsel. cbn [callFormatter]. rewrite Hret.
  cbn [andThen].
  destruct (String.eqb_spec (typeof v) "string") as [Heq|_]; [contradiction|].
  reflexivity.
Qed.

(** X9.  When the registry holds no formatter under the configured format
    name, the one registered as [json] is used in its place.  When [json]
    is missing too, both attempts fail on calling what is not there, and
    the output is still produced: the minimal text with the level, the
    message and the failure. *)
Theorem render_unregistered_format (lg : Logger.t) (logEntry : LogEntry.t) :
  Logger.formatters lg !! Options.format (Logger.options lg) = None ->
  (forall (formatter : Formatter) (text : string),
     Logger.formatters lg !! "json" = Some formatter ->
     formatter logEntry = Ok (VStr text) ->
     render lg logEntry = VStr text) /\
  (Logger.formatters lg !! "json" = None ->
   render lg logEntry =
   VStr ("{" +:+ quoted "level" +:+ ":" +:+ quoted (LogEntry.level logEntry) +:+ "," +:+
         quoted "msg" +:+ ":" +:+ quoted (LogEntry.msg logEntry) +:+ "," +:+
         quoted "formatterError" +:+ ":" +:+
         quoted ("Formatter failed: " +:+ typeErrorMessage "formatter") +:+ "}")).
Proof.
  intros Hnone. split.
  - intros formatter text Hjson Hret.
    unfold render, firstAttempt. rewrite Hnone, Hjson. cbn [callFormatter].
    rewrite Hret. reflexivity.
  - intros Hjson.
    apply (render_minimal lg logEntry (JsError (typeErrorMessage "formatter"))
             (JsError (typeErrorMessage "this.formatters.json"))).
    + unfold firstAttempt. rewrite Hnone, Hjson. reflexivity.
    + rewrite Hjson. reflexivity.
Qed.

End SimpleFormatterFacts.

(** ** More on validation and construction *)

Section ConstructionMore.
Context `{Runtime}.

Lemma andThen_check (bad : bool) (message : string) (k : unit -> Result unit) :
  andThen (check bad message) k = Ok tt <-> bad = false /\ k tt = Ok tt.
Proof.
  unfold andThen, check. destruct bad.
  - split; [discriminate | intros [? _]; discriminate].
  - split; [intros Hk; split; [reflexivity | exact Hk] | intros [_ Hk]; exact Hk].
Qed.

Lemma name_check (names : list string) (v : value) :
  negb (isUndefined v) && negb (includes names v) = false <-> nameAccepted names v.
Proof.
  unfold nameAccepted.
  destruct v as [| |b|n|s|elems|props|props key]; cbn [isUndefined includes negb andb];
    try (split; [discriminate | intros [?|[s' [? _]]]; discriminate]).
  - split; [intros _; left; reflexivity | reflexivity].
  - rewrite negb_false_iff, existsb_exists. split.
    + intros [x [Hin Heq]]. apply String.eqb_eq in Heq. subst x. right. eauto.
    + intros [Hu|[s' [Heq Hin]]]; [discriminate|]. injection Heq as <-.
      exists s. split; [exact Hin | apply String.eqb_refl].
Qed.

Lemma colours_check (v : value) :
  negb (isUndefined v) && negb (String.eqb (typeof v) "object") = false <->
  coloursAccepted v.
Proof.
  unfold coloursAccepted.
  destruct v as [| |b|n|s|elems|props|props key]; cbn;
    (split; [try discriminate; intros _; (left; reflexivity) || (right; reflexivity)
            | try reflexivity; intros [?|?]; discriminate]).
Qed.

Lemma levels_check (v : value) :
  (if isUndefined v then Ok tt
   else andThen (check (negb (String.eqb (typeof v) "object"))
                   "levels option must be an object")
          (fun _ => andThen (objectEntries v) validateLevelValues)) = Ok tt <->
  levelsAccepted v.
Proof.
  unfold levelsAccepted.
  destruct v as [| |b|n|s|elems|props|props key]; cbn [isUndefined].
  - split; [intros _; left; reflexivity | reflexivity].
  - cbn. split; [discriminate | intros [?|(_ & Hnull & _)]; [discriminate | contradiction]].
  - cbn. split; [discriminate | intros [?|(? & _)]; discriminate].
  - cbn. split; [discriminate | intros [?|(? & _)]; discriminate].
  - cbn. split; [discriminate | intros [?|(? & _)]; discriminate].
  - cbn [typeof]. rewrite String.eqb_refl. cbn [negb check andThen objectEntries].
    rewrite validateLevelValues_ok. split.
    + intros Hall. right. repeat split; [discriminate | exact Hall].
    + intros [?|(_ & _ & Hall)]; [discriminate | exact Hall].
  - cbn [typeof]. rewrite String.eqb_refl. cbn [negb check andThen objectEntries].
    rewrite validateLevelValues_ok. split.
    + intros Hall. right. repeat split; [discriminate | exact Hall].
    + intros [?|(_ & _ & Hall)]; [discriminate | exact Hall].
  - cbn [typeof]. rewrite String.eqb_refl. cbn [negb check andThen objectEntries].
    rewrite validateLevelValues_ok. split.
    + intros Hall. right. repeat split; [discriminate | exact Hall].
    + intros [?|(_ & _ & Hall)]; [discriminate | exact Hall].
Qed.

Lemma validateOptions_iff (options : LoggerOptions.t) :
  validateOptions options = Ok tt <->
  nameAccepted validLevels (LoggerOptions.level options) /\
  nameAccepted validFormats (LoggerOptions.format options) /\
  nameAccepted validTimes (LoggerOptions.time options) /\
  nameAccepted validLevels (LoggerOptions.callerLevel options) /\
  coloursAccepted (LoggerOptions.colours options) /\
  levelsAccepted (LoggerOptions.levels options).
Proof.
  unfold validateOptions. cbv zeta.
  rewrite !andThen_check, !name_check, colours_check, levels_check. reflexivity.
Qed.

(** X10.  Construction succeeds exactly when each option passes its check:
    [level] and [callerLevel] are left out or name one of the five built-in
    levels, [format] is left out or is [json] or [simple], [time] is left
    out or is [long] or [short], [colours] is left out or of type [object],
    and [levels] is left out or is an object other than [null] whose every
    entry is a whole number that is not negative. *)
Theorem newLogger_accepts_iff (isTerminal : bool) (options : LoggerOptions.t) :
  (exists lg, newLogger isTerminal options = Ok lg) <->
  nameAccepted validLevels (LoggerOptions.level options) /\
  nameAccepted validFormats (LoggerOptions.format options) /\
  nameAccepted validTimes (LoggerOptions.time options) /\
  nameAccepted validLevels (LoggerOptions.callerLevel options) /\
  coloursAccepted (LoggerOptions.colours options) /\
  levelsAccepted (LoggerOptions.levels options).
Proof. rewrite newLogger_ok. apply validateOptions_iff. Qed.

End ConstructionMore.

Section MergeFacts.
Context `{Runtime}.

(** With the other options valid, what a [levels] option makes of the
    validation. *)
Lemma validateOptions_levels_part (options : LoggerOptions.t) (v : value) :
  validateOptions (withLevelsOption VUndefined options) = Ok tt ->
  validateOptions (withLevelsOption v options) =
  if isUndefined v then Ok tt
  else andThen (check (negb (String.eqb (typeof v) "object"))
                  "levels option must be an object")
         (fun _ => andThen (objectEntries v) validateLevelValues).
Proof.
  unfold validateOptions, withLevelsOption. cbv zeta.
  cbn [LoggerOptions.level LoggerOptions.levels LoggerOptions.format LoggerOptions.time
       LoggerOptions.callerLevel LoggerOptions.colours isUndefined].
  unfold check at 1 2 3 4 5 7 8 9 10 11.
  repeat match goal with
         | |- context [andThen (if ?b && ?c then Throw _ else Ok tt) _] =>
             destruct (b && c); cbn [andThen]
         end; try discriminate.
  intros _. reflexivity.
Qed.

Lemma assignLevels_absent (es : list (string * value)) (k : string) :
  ~ In k (map fst es) ->
  forall target : gmap string Z,
    foldl (fun m kv => match snd kv with
                       | VNum n => <[fst kv := integerOf n]> m
                       | _ => m
                       end) target es !! k = target !! k.
Proof.
  induction es as [|[k1 v1] rest IH]; intros Hout target; [reflexivity|].
  cbn [foldl fst snd]. cbn [map fst In] in Hout.
  rewrite IH by tauto.
  destruct v1; try reflexivity.
  apply lookup_insert_ne. intros ->. tauto.
Qed.

Lemma assignLevels_present (es : list (string * value)) (k : string) (n : Q) :
  NoDup (map fst es) -> In (k, VNum n) es ->
  forall target : gmap string Z,
    foldl (fun m kv => match snd kv with
                       | VNum n => <[fst kv := integerOf n]> m
                       | _ => m
                       end) target es !! k = Some (integerOf n).
Proof.
  induction es as [|[k1 v1] rest IH]; intros Hnodup Hin target; [contradiction|].
  cbn [map fst] in Hnodup. apply NoDup_cons in Hnodup as [Hfresh Hrest].
  cbn [foldl fst snd]. destruct Hin as [Heq|Hin].
  - injection Heq as -> ->.
    rewrite assignLevels_absent by (rewrite <- list_elem_of_In; exact Hfresh).
    apply lookup_insert_eq.
  - apply IH; assumption.
Qed.

Lemma whole_number (n : Q) :
  nonNegativeInteger (VNum n) -> (0 <= integerOf n)%Z /\ inject_Z (integerOf n) == n.
Proof.
  cbn [nonNegativeInteger]. intros [Hpos [q Hq]]. unfold integerOf.
  rewrite Hq, Z.div_mul by discriminate. split.
  - assert (0 <= q * Z.pos (Qden n))%Z by lia. nia.
  - unfold Qeq. cbn [Qnum Qden inject_Z]. lia.
Qed.

(** X12.  The level table of a logger is the built-in table overlaid with
    the [levels] option: a name the option does not mention keeps its
    built-in rank (or stays absent), and a name it mentions gets the
    supplied number, which is whole and not negative.  The five built-in
    names are always keys of the table, and so are the logger's current
    level and its caller threshold. *)
Theorem newLogger_levels_merge (isTerminal : bool) (options : LoggerOptions.t)
    (lg : Logger.t) :
  newLogger isTerminal options = Ok lg ->
  (LoggerOptions.levels options = VUndefined ->
   Options.levels (Logger.options lg) = defaultLevels) /\
  (forall props,
     LoggerOptions.levels options = VObj props ->
     (forall k, ~ In k (map fst props) ->
        Options.levels (Logger.options lg) !! k = defaultLevels !! k) /\
     (NoDup (map fst props) ->
      forall k v, In (k, v) props ->
        exists n,
          v = VNum n /\ (0 <= integerOf n)%Z /\ inject_Z (integerOf n) == n /\
          Options.levels (Logger.options lg) !! k = Some (integerOf n))) /\
  (forall name, In name validLevels ->
     is_Some (Options.levels (Logger.options lg) !! name)) /\
  is_Some (Options.levels (Logger.options lg) !! Options.level (Logger.options lg)) /\
  is_Some (Options.levels (Logger.options lg) !! Options.callerLevel (Logger.options lg)).
Proof.
  intros Hnew.
  assert (Hvalid : validateOptions options = Ok tt)
    by (apply (newLogger_ok isTerminal); eauto).
  apply validateOptions_iff in Hvalid as (Hlevel & _ & _ & Hcaller & _ & Hlevels).
  unfold newLogger, andThen in Hnew.
  destruct (validateOptions options) as [[]|e]; [|discriminate].
  injection Hnew as <-.
  cbn [Logger.options Options.levels Options.level Options.callerLevel].
  assert (Hbuiltin : forall name, In name validLevels ->
            is_Some (assignLevels defaultLevels (LoggerOptions.levels options) !! name)).
  { intros name Hin. apply assignLevels_keeps. exact (proj1 (defaultLevels_valid name Hin)). }
  assert (Hdefault : forall (v : value) (fallback : string),
            nameAccepted validLevels v -> In fallback validLevels ->
            In (orElse v fallback) validLevels).
  { intros v fallback [->|[s [-> Hin]]] Hfb; [exact Hfb|].
    cbn [orElse].
    destruct (String.eqb_spec s EmptyString) as [Heq|_]; [exact Hfb | exact Hin]. }
  split; [|split; [|split; [exact Hbuiltin|split]]].
  - intros ->. reflexivity.
  - intros props Hprops. rewrite Hprops. unfold assignLevels. cbn [entries].
    split.
    + intros k Hout. apply assignLevels_absent. exact Hout.
    + intros Hnodup k v Hin.
      destruct Hlevels as [Hu|(_ & _ & Hall)]; [congruence|].
      rewrite Hprops in Hall. cbn [entries] in Hall. rewrite Forall_forall in Hall.
      assert (Hv : nonNegativeInteger v)
        by (apply (Hall (k, v)); apply list_elem_of_In; exact Hin).
      destruct v as [| |b|n|s|elems|ps|ps key]; try contradiction.
      destruct (whole_number n Hv) as [Hpos Heq].
      exists n. repeat split; try assumption.
      apply assignLevels_present; assumption.
  - apply Hbuiltin, Hdefault; [exact Hlevel | cbn; tauto].
  - apply Hbuiltin, Hdefault; [exact Hcaller | cbn; tauto].
Qed.

(** X11.  [null] passes the type check of both object options.  As
    [colours] it is then ignored: the logger gets the built-in colours.  As
    [levels] it makes the construction fail, not with the message of the
    validation, but with the error the runtime raises on listing the
    entries of [null]. *)
Theorem newLogger_null_options (isTerminal : bool) (options : LoggerOptions.t) :
  (validateOptions (withColoursOption VUndefined options) = Ok tt ->
   exists lg,
     newLogger isTerminal (withColoursOption VNull options) = Ok lg /\
     Options.colours (Logger.options lg) = defaultColours) /\
  (validateOptions (withLevelsOption VUndefined options) = Ok tt ->
   newLogger isTerminal (withLevelsOption VNull options) =
   Throw (JsError (typeErrorMessage "Object.entries"))).
Proof.
  split; intros Hother.
  - assert (Hvalid : validateOptions (withColoursOption VNull options) = Ok tt).
    { apply validateOptions_iff. apply validateOptions_iff in Hother.
      destruct Hother as (? & ? & ? & ? & _ & ?).
      repeat split; try assumption. right. reflexivity. }
    unfold newLogger. rewrite Hvalid. cbn [andThen]. eexists. split; reflexivity.
  - unfold newLogger. rewrite (validateOptions_levels_part options VNull Hother).
    reflexivity.
Qed.

End MergeFacts.

(** [levels: { custom: 4, error: 7 }] *)
Lemma newLogger_levels_merge_witness :
  exists n,
    num 7 = VNum n /\ (0 <= integerOf n)%Z /\ inject_Z (integerOf n) == n /\
    Options.levels (Logger.options customLevelsLogger) !! "error" = Some (integerOf n).
Proof.
  exact (proj2 (proj1 (proj2 (newLogger_levels_merge (H := exampleRuntime) false
                                (withLevelsOption (VObj [("custom", num 4); ("error", num 7)])
                                   noOptions) customLevelsLogger eq_refl))
                      [("custom", num 4); ("error", num 7)] eq_refl)
           ltac:(repeat constructor; cbn; intros Hin; rewrite ?list_elem_of_In in Hin;
                 cbn in Hin; intuition discriminate)
           "error" (num 7) ltac:(cbn; tauto)).
Defined.

Lemma newLogger_null_options_witness :
  newLogger false (withLevelsOption VNull noOptions) =
  Throw (JsError (typeErrorMessage "Object.entries")).
Proof.
  exact (proj2 (newLogger_null_options (H := exampleRuntime) false noOptions) eq_refl).
Defined.

(** ** What the calls leave alone *)

Section FrameFacts.
Context `{Runtime}.

Lemma sameSettings_refl (lg : Logger.t) : sameSettings lg lg.
Proof. repeat split. Qed.

Lemma sameSettings_count (n : nat) (lg : Logger.t) :
  sameSettings lg (withCallerErrorCount n lg).
Proof. repeat split. Qed.

Lemma getCallerInfo_settings (s : StackValue) (w : World) :
  sameSettings (this w) (this (snd (getCallerInfo s w))) /\
  stdout (snd (getCallerInfo s w)) = stdout w.
Proof.
  destruct (stackFails s) eqn:Hs.
  - rewrite (getCallerInfo_failed s w Hs). split; [apply sameSettings_count | reflexivity].
  - destruct s as [[|first rest]|v]; try discriminate.
    rewrite getCallerInfo_found. split; [apply sameSettings_count | reflexivity].
Qed.

(** The record [buildEntry] returns, field by field. *)
Lemma buildEntry_result (env : Env) (name : string) (message : value) (args : list value)
    (w : World) :
  exists file line w1,
    buildEntry env name message args w =
    (Ok {| LogEntry.level := name;
           LogEntry.levelNumber := rank (this w) name;
           LogEntry.time :=
             if String.eqb (Options.time (Logger.options (this w))) "long" then now env
             else replaceFirstChar "T" " " (substring 0 16 (now env));
           LogEntry.pid := pid env;
           LogEntry.hostname := hostname env;
           LogEntry.msg := format message args;
           LogEntry.callerFile := file;
           LogEntry.callerLine := line;
           LogEntry.more := [] |}, w1) /\
    sameSettings (this w) (this w1) /\
    prepareStackTrace w1 = prepareStackTrace w /\
    stdout w1 = stdout w.
Proof.
  unfold buildEntry, bind at 1, getThis.
  destruct (shouldIncludeCaller (this w) name).
  - unfold bind at 1, bind at 1.
    destruct (getCallerInfo_returns (stack env) w) as (c & w' & Heq & Hhook & Hout & _).
    pose proof (getCallerInfo_settings (stack env) w) as [Hsame _].
    rewrite Heq in Hsame |- *. unfold ret. cbn [snd] in Hsame.
    eexists _, _, _. split; [reflexivity|]. repeat split; try assumption; apply Hsame.
  - unfold bind at 1, ret.
    eexists _, _, _. split; [reflexivity|]. repeat split.
Qed.

(** An emit call that passes the gate, step by step: the record is built,
    rendered, and written once. *)
Lemma log_open_result (env : Env) (name : string) (message : value) (args : list value)
    (w : World) :
  gateClosed (this w) name = false ->
  exists logEntry w1,
    buildEntry env name message args w = (Ok logEntry, w1) /\
    log env name message args w =
    (Ok tt,
     {| this := this w1;
        prepareStackTrace := prepareStackTrace w1;
        stdout :=
          stdout w1 ++
          [if Logger.isRedirected (this w) then render (this w) logEntry
           else VStr (toStr (colourOf (this w) name) +:+
                      toStr (render (this w) logEntry) +:+
                      toStr (colourOf (this w) "reset"))];
        stderr := stderr w1;
        inspections := inspections w1 |}).
Proof.
  intros Hgate.
  destruct (buildEntry_result env name message args w)
    as (file & line & w1 & Heq & _).
  eexists _, w1. split; [exact Heq|].
  unfold log, bind at 1, getThis. rewrite Hgate. unfold bind. rewrite Heq.
  destruct (Logger.isRedirected (this w)); reflexivity.
Qed.

Lemma log_settings (env : Env) (name : string) (message : value) (args : list value)
    (w : World) :
  sameSettings (this w) (this (snd (log env name message args w))) /\
  prepareStackTrace (snd (log env name message args w)) = prepareStackTrace w /\
  exists written,
    stdout (snd (log env name message args w)) = stdout w ++ written /\
    length written = if gateClosed (this w) name then 0 else 1.
Proof.
  destruct (gateClosed (this w) name) eqn:Hgate.
  - rewrite (log_closed env name message args w Hgate). cbn [snd].
    split; [apply sameSettings_refl|]. split; [reflexivity|].
    exists []. rewrite app_nil_r. split; reflexivity.
  - destruct (log_open_result env name message args w Hgate) as (e & w1 & Hbuild & ->).
    destruct (buildEntry_result env name message args w)
      as (file & line & w1' & Heq & Hsame & Hhook & Hout).
    rewrite Hbuild in Heq. injection Heq as _ <-.
    cbn [snd this prepareStackTrace stdout].
    split; [exact Hsame|]. split; [exact Hhook|].
    eexists [_]. rewrite Hout. split; reflexivity.
Qed.

(** [level], case by case. *)
Lemma level_equation (arguments : list (option string)) (w : World) :
  level arguments w =
  match arguments with
  | Some name :: _ =>
      match Options.levels (Logger.options (this w)) !! name with
      | Some _ =>
          (Ok name,
           {| this := withLevel name (this w);
              prepareStackTrace := prepareStackTrace w;
              stdout := stdout w;
              stderr := stderr w;
              inspections := inspections w |})
      | None => (Throw (JsError ("Invalid log level: " +:+ name)), w)
      end
  | _ => (Ok (Options.level (Logger.options (this w))), w)
  end.
Proof.
  destruct arguments as [|[name|] rest]; try reflexivity.
  unfold level, bind, getThis.
  destruct (Options.levels (Logger.options (this w)) !! name) as [r|] eqn:Hrank.
  - rewrite bool_decide_eq_true_2 by eauto. reflexivity.
  - rewrite bool_decide_eq_false_2 by (intros [x Hx]; discriminate). reflexivity.
Qed.

Lemma level_configuration (arguments : list (option string)) (w : World) :
  sameConfiguration (this w) (this (snd (level arguments w))) /\
  (is_Some (rank (this w) (Options.level (Logger.options (this w)))) ->
   is_Some (rank (this (snd (level arguments w)))
              (Options.level (Logger.options (this (snd (level arguments w))))))) /\
  prepareStackTrace (snd (level arguments w)) = prepareStackTrace w /\
  stdout (snd (level arguments w)) = stdout w /\
  stderr (snd (level arguments w)) = stderr w.
Proof.
  rewrite level_equation.
  destruct arguments as [|[name|] rest]; try (repeat split; tauto).
  destruct (Options.levels (Logger.options (this w)) !! name) as [r|] eqn:Hrank.
  - cbn. repeat split. intros _. unfold rank. cbn. rewrite Hrank. eauto.
  - repeat split; tauto.
Qed.

Lemma sameSettings_configuration (a b : Logger.t) :
  sameSettings a b -> sameConfiguration a b.
Proof. intros (Hopt & ? & ? & ?). unfold sameConfiguration. rewrite Hopt. tauto. Qed.

Lemma sameConfiguration_trans (a b c : Logger.t) :
  sameConfiguration a b -> sameConfiguration b c -> sameConfiguration a c.
Proof.
  unfold sameConfiguration.
  intros (? & ? & ? & ? & ? & ? & ? & ?) (? & ? & ? & ? & ? & ? & ? & ?).
  repeat split; congruence.
Qed.

Lemma perform_configuration (op : Operation) (w : World) :
  sameConfiguration (this w) (this (perform w op)) /\
  (is_Some (rank (this w) (Options.level (Logger.options (this w)))) ->
   is_Some (rank (this (perform w op))
              (Options.level (Logger.options (this (perform w op)))))) /\
  prepareStackTrace (perform w op) = prepareStackTrace w.
Proof.
  destruct op as [arguments|arguments|env name message args]; cbn [perform].
  - destruct (level_configuration arguments w) as (? & ? & ? & _). tauto.
  - rewrite setLevel_level.
    destruct (level_configuration arguments w) as (? & ? & ? & _). tauto.
  - destruct (log_settings env name message args w) as (Hsame & Hhook & _).
    split; [apply sameSettings_configuration; exact Hsame|]. split; [|exact Hhook].
    destruct Hsame as (Hopt & _). unfold rank. rewrite Hopt. tauto.
Qed.

End FrameFacts.

Section SequenceFacts.
Context `{Runtime}.

(** X13.  Whatever calls of [level], [setLevel] and [log] are made on a
    logger, in whatever order and whether they return or throw, its level
    table, format, time style, caller threshold, colours, formatter
    registry, redirection flag and failure ceiling stay as they were, the
    stack-trace hook is left as it was found, and a current level that was
    a key of the level table is still one. *)
Theorem operations_keep_configuration (ops : list Operation) (w : World) :
  is_Some (rank (this w) (Options.level (Logger.options (this w)))) ->
  sameConfiguration (this w) (this (performAll ops w)) /\
  is_Some (rank (this (performAll ops w))
             (Options.level (Logger.options (this (performAll ops w))))) /\
  prepareStackTrace (performAll ops w) = prepareStackTrace w.
Proof.
  unfold performAll. revert w.
  induction ops as [|op rest IH]; intros w Hknown; cbn [foldl].
  - repeat split. exact Hknown.
  - destruct (perform_configuration op w) as (Hconf & Hkeep & Hhook).
    destruct (IH (perform w op) (Hkeep Hknown)) as (Hconf' & Hknown' & Hhook').
    split; [exact (sameConfiguration_trans _ _ _ Hconf Hconf')|].
    split; [exact Hknown' | congruence].
Qed.

Lemma gateClosed_settings (a b : Logger.t) (name : string) :
  sameSettings a b -> gateClosed b name = gateClosed a name.
Proof. intros (Hopt & _). unfold gateClosed, rank. rewrite Hopt. reflexivity. Qed.

Lemma emitEach_lines (env : Env) (message : value) (args : list value)
    (names : list string) :
  forall w,
    sameSettings (this w) (this (emitEach env message args names w)) /\
    length (stdout (emitEach env message args names w)) =
    length (stdout w) +
    length (List.filter (fun name => negb (gateClosed (this w) name)) names).
Proof.
  unfold emitEach.
  induction names as [|name rest IH]; intros w; cbn [foldl List.filter].
  - split; [apply sameSettings_refl | cbn; lia].
  - destruct (log_settings env name message args w) as (Hsame & _ & written & Hout & Hlen).
    destruct (IH (snd (log env name message args w))) as [Hsame' Hcount].
    split.
    + destruct Hsame as (? & ? & ? & ?), Hsame' as (? & ? & ? & ?).
      repeat split; congruence.
    + rewrite Hcount, Hout, length_app, Hlen.
      rewrite (List.filter_ext _ (fun name => negb (gateClosed (this w) name)))
        by (intros x; rewrite (gateClosed_settings _ _ x Hsame); reflexivity).
      destruct (gateClosed (this w) name); cbn [negb length]; lia.
Qed.

(** X18.  A run of emit calls writes one entry for each call that passes the
    gate and nothing else: the output grows by the number of calls whose
    level does not rank above the current level.  A call at a name that has
    no rank in the table passes.  With the built-in ranks, calling [error],
    [warn], [info] and [debug] once each writes as many entries as the rank
    of the current level plus one: none at [silent], all four at
    [debug]. *)
Theorem emit_calls_written (env : Env) (message : value) (args : list value) (w : World) :
  (forall names,
     length (stdout (emitEach env message args names w)) =
     length (stdout w) +
     length (List.filter (fun name => negb (gateClosed (this w) name)) names)) /\
  (forall name, rank (this w) name = None -> gateClosed (this w) name = false) /\
  (forall rc,
     Options.levels (Logger.options (this w)) = defaultLevels ->
     In (Options.level (Logger.options (this w))) validLevels ->
     rank (this w) (Options.level (Logger.options (this w))) = Some rc ->
     length (stdout (emitEach env message args ["error"; "warn"; "info"; "debug"] w)) =
     length (stdout w) + Z.to_nat (rc + 1)).
Proof.
  split; [|split].
  - intros names. apply emitEach_lines.
  - intros name Hnone. unfold gateClosed. rewrite Hnone. reflexivity.
  - intros rc Hlevels Hin Hrc.
    rewrite (proj2 (emitEach_lines env message args _ w)).
    f_equal. unfold gateClosed, rank in *. rewrite Hlevels in *.
    cbn in Hin.
    repeat (destruct Hin as [Hin|Hin];
            [rewrite <- Hin in *; vm_compute in Hrc; injection Hrc as <-; reflexivity|]).
    contradiction.
Qed.

(** X19.  After [level] or [setLevel] has been given a name that has a
    rank, reading the level gives that name back, and an emit call at that
    very level passes the gate: it is written, once.  After either has been
    given a name that has no rank, reading the level gives what it gave
    before. *)
Theorem level_set_then_use (w : World) (name : string) :
  (forall r,
     Options.levels (Logger.options (this w)) !! name = Some r ->
     fst (level [] (snd (level [Some name] w))) = Ok name /\
     fst (setLevel [] (snd (setLevel [Some name] w))) = Ok name /\
     forall env message args,
       exists line,
         stdout (snd (log env name message args (snd (level [Some name] w)))) =
         stdout w ++ [line]) /\
  (Options.levels (Logger.options (this w)) !! name = None ->
   fst (level [] (snd (level [Some name] w))) = fst (level [] w) /\
   fst (setLevel [] (snd (setLevel [Some name] w))) = fst (setLevel [] w)).
Proof.
  split.
  - intros r Hrank.
    rewrite !setLevel_level, !level_equation, Hrank. cbn [snd fst this].
    repeat split.
    intros env message args.
    match goal with |- context [log env name message args ?w1] => set (w1' := w1) end.
    assert (Hopen : gateClosed (this w1') name = false).
    { unfold gateClosed, rank, jsGt. cbn. rewrite Hrank. apply Z.ltb_irrefl. }
    destruct (log_open env name message args w1' Hopen) as (line & w2 & -> & Hout).
    exists line. exact Hout.
  - intros Hnone.
    rewrite !setLevel_level, !level_equation, Hnone. split; reflexivity.
Qed.

(** X16.  What an emit call that passes the gate writes is the rendering of
    the record it has built: as it is when the output is redirected, and
    between the level's colour and the reset colour when it is a terminal.
    A level for which the colour table has no entry is written with the
    text [undefined] in front. *)
Theorem log_writes_rendering (env : Env) (name : string) (message : value)
    (args : list value) (w : World) :
  gateClosed (this w) name = false ->
  exists logEntry,
    recordOf env name message args w = Some logEntry /\
    (Logger.isRedirected (this w) = true ->
     stdout (snd (log env name message args w)) = stdout w ++ [render (this w) logEntry]) /\
    (Logger.isRedirected (this w) = false ->
     stdout (snd (log env name message args w)) =
     stdout w ++ [VStr (toStr (colourOf (this w) name) +:+
                        toStr (render (this w) logEntry) +:+
                        toStr (colourOf (this w) "reset"))]) /\
    (Options.colours (Logger.options (this w)) !! name = None ->
     toStr (colourOf (this w) name) = "undefined").
Proof.
  intros Hgate.
  destruct (log_open_result env name message args w Hgate) as (e & w1 & Hbuild & ->).
  destruct (buildEntry_result env name message args w)
    as (file & line & w1' & Heq & _ & _ & Hout).
  rewrite Hbuild in Heq. injection Heq as _ <-.
  exists e. cbn [snd stdout]. rewrite Hout.
  split; [unfold recordOf; rewrite Hgate, Hbuild; reflexivity|].
  split; [intros ->; reflexivity|].
  split; [intros ->; reflexivity|].
  intros Hnone. unfold colourOf. rewrite Hnone. reflexivity.
Qed.

End SequenceFacts.

Section CallerAndRecordFacts.
Context `{Runtime}.

Lemma scanFrames_inside (currentFile : string) (inside rest : list CallSite)
    (callerFile : string) (callerLine : Z) :
  List.Forall (fun frame => getFileName frame = currentFile) inside ->
  scanFrames currentFile (inside ++ rest) callerFile callerLine =
  scanFrames currentFile rest
    (match inside with [] => callerFile | _ :: _ => currentFile end)
    callerLine.
Proof.
  intros Hinside. revert callerFile.
  induction Hinside as [|frame inside Hframe _ IH]; intros callerFile.
  - reflexivity.
  - cbn [app scanFrames]. rewrite Hframe, String.eqb_refl. cbn [negb].
    rewrite IH. destruct inside; reflexivity.
Qed.

(** X14.  The caller [getCallerInfo] reports is the first frame below the
    top of the stack whose file is not the file of the top frame, with that
    frame's line, however many frames of the top frame's file come before it
    and whatever comes after it.  When every frame below the top is in the
    top frame's own file, the report is that file with line 0, and
    [unknown] with line 0 when the top frame is the only one. *)
Theorem getCallerInfo_first_outside (first : CallSite) (inside : list CallSite) (w : World) :
  List.Forall (fun frame => getFileName frame = getFileName first) inside ->
  (forall caller outer,
     getFileName caller <> getFileName first ->
     fst (getCallerInfo (StackFrames (first :: inside ++ caller :: outer)) w) =
     Ok (getFileName caller, getLineNumber caller)) /\
  fst (getCallerInfo (StackFrames (first :: inside)) w) =
  Ok (match inside with [] => "unknown" | _ :: _ => getFileName first end, 0%Z).
Proof.
  intros Hinside. split.
  - intros caller outer Hcaller.
    rewrite getCallerInfo_found. cbn [fst].
    rewrite (scanFrames_inside _ _ _ _ _ Hinside). cbn [scanFrames].
    destruct (String.eqb_spec (getFileName first) (getFileName caller)) as [Heq|_];
      [congruence | reflexivity].
  - rewrite getCallerInfo_found. cbn [fst].
    rewrite <- (app_nil_r inside) at 1.
    rewrite (scanFrames_inside _ _ _ _ _ Hinside). cbn [scanFrames].
    destruct inside; reflexivity.
Qed.

Lemma substring_prefix (a b : string) :
  substring 0 (String.length a) (a +:+ b) = a.
Proof.
  induction a as [|c a IH]; cbn [String.length].
  - destruct b; reflexivity.
  - rewrite append_cons. cbn [substring]. now rewrite IH.
Qed.

Lemma replaceFirstChar_first (c : ascii) (by_ before after : string) :
  occurs c before = false ->
  replaceFirstChar c by_ (before +:+ String c after) = before +:+ by_ +:+ after.
Proof.
  induction before as [|x before IH]; cbn [occurs]; intros Hnone.
  - change (EmptyString +:+ String c after) with (String c after).
    cbn [replaceFirstChar]. now rewrite Ascii.eqb_refl.
  - apply orb_false_iff in Hnone as [Hx Hrest].
    rewrite !append_cons. cbn [replaceFirstChar]. rewrite Hx. now rewrite IH.
Qed.

Lemma short_time (date clock rest : string) :
  String.length date = 10 -> String.length clock = 5 -> occurs "T" date = false ->
  replaceFirstChar "T" " " (substring 0 16 (date +:+ String "T" (clock +:+ rest))) =
  date +:+ String " " clock.
Proof.
  intros Hdate Hclock Hnone.
  replace (date +:+ String "T" (clock +:+ rest))
    with ((date +:+ String "T" clock) +:+ rest)
    by (rewrite append_associative, append_cons; reflexivity).
  replace 16 with (String.length (date +:+ String "T" clock))
    by (rewrite length_append; cbn [String.length]; lia).
  rewrite substring_prefix.
  exact (replaceFirstChar_first "T" " " date clock Hnone).
Qed.

(** X15.  The record an emit call builds when it passes the gate carries the
    level's name and its rank in the table, the host's pid and hostname, the
    interpolated message, and no further field.  Its time is the host's ISO
    timestamp as it stands when the time style is [long]; with any other
    style, for a timestamp made of a ten-character date, a [T] and a clock
    that starts with five characters, it is the date, a space, and those
    five characters. *)
Theorem log_record_fields (env : Env) (name : string) (message : value)
    (args : list value) (w : World) :
  gateClosed (this w) name = false ->
  exists logEntry,
    recordOf env name message args w = Some logEntry /\
    LogEntry.level logEntry = name /\
    LogEntry.levelNumber logEntry = rank (this w) name /\
    LogEntry.pid logEntry = pid env /\
    LogEntry.hostname logEntry = hostname env /\
    LogEntry.msg logEntry = format message args /\
    LogEntry.more logEntry = [] /\
    (Options.time (Logger.options (this w)) = "long" ->
     LogEntry.time logEntry = now env) /\
    (forall date clock rest,
       Options.time (Logger.options (this w)) <> "long" ->
       now env = date +:+ String "T" (clock +:+ rest) ->
       String.length date = 10 -> String.length clock = 5 -> occurs "T" date = false ->
       LogEntry.time logEntry = date +:+ String " " clock).
Proof.
  intros Hgate.
  destruct (buildEntry_result env name message args w)
    as (file & line & w1 & Heq & _).
  eexists. split; [unfold recordOf; rewrite Hgate, Heq; reflexivity|].
  cbn [LogEntry.level LogEntry.levelNumber LogEntry.pid LogEntry.hostname
       LogEntry.msg LogEntry.more LogEntry.time].
  repeat (split; [reflexivity|]).
  split.
  - intros ->. reflexivity.
  - intros date clock rest Hstyle Hnow Hdate Hclock Hnone.
    destruct (String.eqb_spec (Options.time (Logger.options (this w))) "long");
      [contradiction|].
    rewrite Hnow. now apply short_time.
Qed.

End CallerAndRecordFacts.

Section HostFacts.

Lemma hostnameFromOs_named (g : GlobalScope) (name : string) :
  hostnameFromOs g = Ok name -> name <> EmptyString.
Proof.
  unfold hostnameFromOs, andThen.
  repeat match goal with
         | |- context [match ?x with _ => _ end] => destruct x eqn:?; try discriminate
         end.
  all: intros [= <-]; try discriminate.
  match goal with
  | Htruthy : truthyText ?o = true |- _ =>
      destruct o as [text|]; cbn in Htruthy |- *; [|discriminate];
      intros ->; discriminate
  end.
Qed.

(** The guarded block when every step gives something. *)
Lemma hostnameFromOs_reached (g : GlobalScope) (requireFn : RequireFn) (os : OsModule)
    (given : string) :
  require g = Some requireFn \/ (require g = None /\ evalRequire g = Ok (Some requireFn)) ->
  requireFn "os" = Ok (Some os) ->
  os_hostname os = Some (Ok given) ->
  hostnameFromOs g = Ok (if String.eqb given EmptyString then "localhost" else given).
Proof.
  intros Hrequire Hos Hname. unfold hostnameFromOs.
  destruct Hrequire as [-> | [-> ->]]; cbn [andThen]; rewrite Hos; cbn [andThen];
    rewrite Hname; cbn [andThen truthyText default];
    destruct (String.eqb given EmptyString); reflexivity.
Qed.

(** X20.  Outside Deno, [getHostname] returns and never throws, whatever
    [require], [eval('require')], the module it gives or its [hostname]
    do, and the name it returns is never empty.  It is [localhost] when the
    process is neither Node.js nor Bun.  On Node.js or Bun, when
    [globalThis.require], or [eval('require')] in its absence, gives a
    function, that function gives a module for [os], and the module's
    [hostname()] returns a name, the result is that name, or [localhost]
    when that name is empty; it is [localhost] when [hostname()] throws
    or is missing, when requiring [os] throws or gives nothing, and when
    [eval('require')] throws or gives nothing.  Under
    Deno, what [Deno.hostname()] does, a throw included, is what
    [getHostname] does. *)
Theorem getHostname_outcomes (g : GlobalScope) :
  (Deno g = None ->
   (exists name, getHostname g = Ok name /\ name <> EmptyString) /\
   (isNode g || isBun g = false -> getHostname g = Ok "localhost") /\
   (isNode g || isBun g = true ->
    forall requireFn,
      require g = Some requireFn \/
      (require g = None /\ evalRequire g = Ok (Some requireFn)) ->
      (forall os given,
         requireFn "os" = Ok (Some os) ->
         os_hostname os = Some (Ok given) ->
         getHostname g = Ok (if String.eqb given EmptyString then "localhost" else given)) /\
      (forall os e,
         requireFn "os" = Ok (Some os) ->
         os_hostname os = Some (Throw e) ->
         getHostname g = Ok "localhost") /\
      (forall os,
         requireFn "os" = Ok (Some os) ->
         os_hostname os = None ->
         getHostname g = Ok "localhost") /\
      (forall e, requireFn "os" = Throw e -> getHostname g = Ok "localhost") /\
      (requireFn "os" = Ok None -> getHostname g = Ok "localhost")) /\
   (isNode g || isBun g = true ->
    require g = None ->
    (forall e, evalRequire g = Throw e -> getHostname g = Ok "localhost") /\
    (evalRequire g = Ok None -> getHostname g = Ok "localhost"))) /\
  (forall deno, Deno g = Some deno -> getHostname g = Deno_hostname deno).
Proof.
  split.
  - intros Hdeno. unfold getHostname. rewrite Hdeno. repeat apply conj.
    + destruct (isNode g || isBun g).
      * destruct (hostnameFromOs g) as [name|e] eqn:Hos.
        -- exists name. split; [reflexivity | exact (hostnameFromOs_named g name Hos)].
        -- exists "localhost". split; [reflexivity | discriminate].
      * exists "localhost". split; [reflexivity | discriminate].
    + intros ->. reflexivity.
    + intros -> requireFn Hrequire. repeat apply conj.
      * intros os given Hos Hname.
        rewrite (hostnameFromOs_reached g requireFn os given Hrequire Hos Hname).
        reflexivity.
      * intros os e Hos Hname. unfold hostnameFromOs.
        destruct Hrequire as [-> | [-> ->]]; cbn [andThen]; rewrite Hos; cbn [andThen];
          rewrite Hname; reflexivity.
      * intros os Hos Hname. unfold hostnameFromOs.
        destruct Hrequire as [-> | [-> ->]]; cbn [andThen]; rewrite Hos; cbn [andThen];
          rewrite Hname; reflexivity.
      * intros e Hos. unfold hostnameFromOs.
        destruct Hrequire as [-> | [-> ->]]; cbn [andThen]; rewrite Hos; reflexivity.
      * intros Hos. unfold hostnameFromOs.
        destruct Hrequire as [-> | [-> ->]]; cbn [andThen]; rewrite Hos; reflexivity.
    + intros -> Hrequire. unfold hostnameFromOs. rewrite Hrequire.
      split; [intros e Heval | intros Heval]; rewrite Heval; reflexivity.
  - intros deno Hdeno. unfold getHostname. rewrite Hdeno. reflexivity.
Qed.

End HostFacts.

(** ** Examples *)

Lemma simpleFormatter_without_caller_witness :
  simpleFormatter sampleInfoEntry = Ok (VStr "[2024-01-15 10:30] [INFO ] started").
Proof.
  exact (proj1 (simpleFormatter_without_caller (H := exampleRuntime) sampleInfoEntry)
           (or_introl eq_refl)).
Defined.

Lemma simpleFormatter_with_caller_witness :
  simpleFormatter sampleWarnEntry =
  Ok (VStr "[2024-01-15 10:30] [WARN ] [main.ts:42] disk full").
Proof.
  exact (simpleFormatter_with_caller (H := exampleRuntime) sampleWarnEntry "/app" "main.ts"
           eq_refl (or_introl eq_refl)).
Defined.

Lemma render_wrong_type_witness :
  render wrongTypeLogger sampleInfoEntry =
  VStr ("{" +:+ quoted "level" +:+ ":" +:+ quoted "info" +:+ "," +:+
        quoted "levelNumber" +:+ ":2," +:+
        quoted "time" +:+ ":" +:+ quoted "2024-01-15 10:30" +:+ "," +:+
        quoted "pid" +:+ ":1234," +:+
        quoted "hostname" +:+ ":" +:+ quoted "localhost" +:+ "," +:+
        quoted "msg" +:+ ":" +:+ quoted "started" +:+ "," +:+
        quoted "formatterError" +:+ ":" +:+
        quoted "Formatter failed: Formatter returned number instead of string" +:+ "}").
Proof.
  exact (render_wrong_type (H := exampleRuntime) wrongTypeLogger sampleInfoEntry
           numberFormatter (num 42) eq_refl eq_refl ltac:(discriminate) eq_refl eq_refl).
Defined.

Lemma render_unregistered_format_witness :
  render emptyRegistryLogger sampleWarnEntry =
  VStr ("{" +:+ quoted "level" +:+ ":" +:+ quoted "warn" +:+ "," +:+
        quoted "msg" +:+ ":" +:+ quoted "disk full" +:+ "," +:+
        quoted "formatterError" +:+ ":" +:+
        quoted "Formatter failed: formatter is not a function" +:+ "}").
Proof.
  exact (proj2 (render_unregistered_format (H := exampleRuntime) emptyRegistryLogger
                  sampleWarnEntry eq_refl) eq_refl).
Defined.

Lemma operations_keep_configuration_witness :
  sameConfiguration defaultLogger
    (this (performAll sampleOperations (freshWorld defaultLogger))) /\
  is_Some (rank (this (performAll sampleOperations (freshWorld defaultLogger)))
             (Options.level
                (Logger.options
                   (this (performAll sampleOperations (freshWorld defaultLogger)))))) /\
  prepareStackTrace (performAll sampleOperations (freshWorld defaultLogger)) = HookUnset.
Proof.
  exact (operations_keep_configuration (H := exampleRuntime) sampleOperations
           (freshWorld defaultLogger) (ex_intro _ 2%Z eq_refl)).
Defined.

Lemma getCallerInfo_first_outside_witness :
  fst (getCallerInfo (stack sampleEnv) (freshWorld defaultLogger)) =
  Ok ("/app/main.ts", 42%Z).
Proof.
  exact (proj1 (getCallerInfo_first_outside (H := exampleRuntime)
                  {| getFileName := "/lib/logger.ts"; getLineNumber := 588 |}
                  [{| getFileName := "/lib/logger.ts"; getLineNumber := 637 |};
                   {| getFileName := "/lib/logger.ts"; getLineNumber := 728 |}]
                  (freshWorld defaultLogger)
                  ltac:(repeat constructor))
           {| getFileName := "/app/main.ts"; getLineNumber := 42 |} []
           ltac:(discriminate)).
Defined.

Lemma log_record_fields_witness :
  exists logEntry,
    recordOf sampleEnv "warn" (VStr "disk %s") [VStr "full"] (freshWorld defaultLogger) =
      Some logEntry /\
    LogEntry.time logEntry = "2024-01-15 10:30" /\
    LogEntry.msg logEntry = "disk full".
Proof.
  destruct (log_record_fields (H := exampleRuntime) sampleEnv "warn" (VStr "disk %s")
              [VStr "full"] (freshWorld defaultLogger) eq_refl)
    as (logEntry & Hrecord & _ & _ & _ & _ & Hmsg & _ & _ & Hshort).
  exists logEntry. split; [exact Hrecord|]. split.
  - exact (Hshort "2024-01-15" "10:30" ":45.123Z" ltac:(discriminate)
             eq_refl eq_refl eq_refl eq_refl).
  - exact Hmsg.
Defined.

Lemma log_writes_rendering_witness :
  exists logEntry,
    recordOf sampleEnv "error" (VStr "x") [] (freshWorld defaultLogger) = Some logEntry /\
    stdout (snd (log sampleEnv "error" (VStr "x") [] (freshWorld defaultLogger))) =
    [render defaultLogger logEntry].
Proof.
  destruct (log_writes_rendering (H := exampleRuntime) sampleEnv "error" (VStr "x") []
              (freshWorld defaultLogger) eq_refl)
    as (logEntry & Hrecord & Hredirected & _).
  exists logEntry. split; [exact Hrecord | exact (Hredirected eq_refl)].
Defined.

Lemma emit_calls_written_witness :
  length (stdout (emitEach sampleEnv (VStr "x") [] ["error"; "warn"; "info"; "debug"]
                    (freshWorld (withLevel "warn" defaultLogger)))) = 2.
Proof.
  exact (proj2 (proj2 (emit_calls_written (H := exampleRuntime) sampleEnv (VStr "x") []
                         (freshWorld (withLevel "warn" defaultLogger))))
           1%Z eq_refl ltac:(cbn; tauto) eq_refl).
Defined.

Lemma level_set_then_use_witness :
  fst (level [] (snd (level [Some "debug"] (freshWorld defaultLogger)))) = Ok "debug".
Proof.
  exact (proj1 (proj1 (level_set_then_use (H := exampleRuntime) (freshWorld defaultLogger)
                         "debug") 3%Z eq_refl)).
Defined.

Lemma getHostname_outcomes_witness :
  getHostname (nodeScope "build-server-07.example.org") = Ok "build-server-07.example.org".
Proof.
  exact (proj1 (proj1 (proj2 (proj2 (proj1 (getHostname_outcomes
                                              (nodeScope "build-server-07.example.org"))
                                       eq_refl)))
                  eq_refl
                  (fun _ => Ok (Some {| os_hostname := Some (Ok "build-server-07.example.org") |}))
                  (or_introl eq_refl))
           {| os_hostname := Some (Ok "build-server-07.example.org") |}
           "build-server-07.example.org" eq_refl eq_refl).
Defined.
